(** * Inventory ledger and event publisher of the microservices starter kit

    A shallow embedding of
    - [apps/product-service/src/inventory/inventory.service.ts]
      (class [InventoryService]),
    - the product-service [EventService.publish]
      (bundled in [apps/product-service/src/category/category.service.ts]),
    - the user-service [EventService.publishEvent] (the retrying publisher),
    together with the properties the specification states about them, and
    of the code around them: the transaction history of the inventory
    service and its controller route, and [CategoryService].

    Conventions of the embedding.
    - The columns [quantity], [reserved], [available] and
      [lowStockThreshold] are Prisma [Int] columns; they and the amounts of
      the request bodies are modelled as [Z].  The request interfaces
      ([UpdateInventoryDto], [ReserveInventoryDto], [ReleaseInventoryDto])
      carry no validation decorators, so every integer, also zero and the
      negative ones, reaches the service.
    - An optional field is an [option]: [None] is a field the body leaves
      out.  The bodies are not validated, so a field can also arrive as
      JSON [null].  Where the code treats [null] as it treats [undefined]
      (the operator [??], which is [default]) [None] stands for both; the
      quantity of [UpdateInventoryDto], which the code also compares with
      [undefined], is a [JsOptional] that keeps the two apart.  A [null]
      for [lowStockThreshold] or [isTracked] reaches Prisma, whose answer
      depends on a schema that is not among the sources, and is left out.
    - The service is a sequence of awaited calls against the database and
      the event service.  It is written in a state-and-exception monad over
      the store [Db]: a thrown exception keeps the writes made before it.
      The database is the injected [PrismaService]; which writes it
      rejects is a parameter of the service methods.  A rejected read
      writes nothing and is left out.
    - [new Date()] timestamps and log lines are left out.
    - The publishers run against a connection and a broker the file does
      not control: what those do to each pass is a parameter, and a
      publisher returns what its promise settles to together with the
      passes and waits it made.

    The definitions come first; the properties follow, grouped by
    operation. *)

From stdpp Require Import gmap strings list fin_maps pretty.
From Equations Require Import Equations.
From Stdlib Require Import ZArith Lia Sorted.

Open Scope Z_scope.

(* ===================================================================== *)
(** * The inventory service *)
(* ===================================================================== *)

Module Inventory.

(** ** Data model *)

(** [include: { product: { select: { id, name, sku } } }] *)
Record ProductRef := {
  id : string;
  name : string;
  sku : string;
}.

(** A row of [productInventory]. *)
Record ProductInventory := {
  productId : string;
  quantity : Z;
  reserved : Z;
  available : Z;
  lowStockThreshold : Z;
  isTracked : bool;
  product : ProductRef;
}.

Inductive TransactionType := RESTOCK | ADJUSTMENT | RESERVE | RELEASE | SALE.

(** A row of [inventoryTransaction]. *)
Record InventoryTransaction := {
  txProductId : string;
  txType : TransactionType;
  txQuantity : Z;
  txReason : string;
  txReference : option string;
}.

(** The two events the inventory service hands to the event service. *)
Inductive ProductEvent :=
| InventoryUpdatedEvent
    (evProductId evSku : string) (previousQuantity newQuantity evAvailable : Z)
| LowStockAlertEvent
    (evProductId evSku evProductName : string) (currentQuantity threshold : Z).

(** A field of a request body as it reaches the service: left out, JSON
    [null], or a value. *)
Inductive JsOptional (A : Type) :=
| Undefined
| Null
| Value (a : A).
Arguments Undefined {A}.
Arguments Null {A}.
Arguments Value {A} a.

(** What [x ?? d] sees of [x]: [undefined] and [null] are both nullish. *)
Definition nullish {A} (x : JsOptional A) : option A :=
  match x with
  | Undefined | Null => None
  | Value a => Some a
  end.

(** Request bodies. *)
Record UpdateInventoryDto := {
  updQuantity : JsOptional Z;
  updReserved : option Z;
  updLowStockThreshold : option Z;
  updIsTracked : option bool;
}.

Record ReserveInventoryDto := {
  resProductId : string;
  resQuantity : Z;
  resReference : option string;
}.

Record ReleaseInventoryDto := {
  relProductId : string;
  relQuantity : Z;
  relReference : option string;
}.

Inductive Exception :=
| NotFoundException (message : string)
| BadRequestException (message : string)
| PrismaRecordNotFound
| PrismaRejected.

(** The store: the [productInventory] table (unique on [productId]), the
    append-only [inventoryTransaction] table in insertion order, and the
    events handed to [EventService], oldest first. *)
Record Db := {
  inventories : gmap string ProductInventory;
  transactions : list InventoryTransaction;
  eventCalls : list ProductEvent;
}.

(** ** The monad of the service *)

Definition M (A : Type) : Type := Db -> (Exception + A) * Db.

Definition ret {A} (a : A) : M A := fun db => (inr a, db).

Definition throw {A} (e : Exception) : M A := fun db => (inl e, db).

Definition bind {A B} (m : M A) (k : A -> M B) : M B :=
  fun db =>
    match m db with
    | (inl e, db') => (inl e, db')
    | (inr a, db') => k a db'
    end.

Notation "x <- m ;; k" := (bind m (fun x => k))
  (at level 100, m at next level, right associativity).
Notation "m ;;; k" := (bind m (fun _ => k))
  (at level 100, right associativity).

(** Template-literal interpolation of an integer, [`${n}`]: its decimal
    digits, after a minus sign when it is negative. *)
Definition show (n : Z) : string := pretty n.

(** ** Prisma calls *)

(** The [data] argument of an update: a field left [undefined] is not
    written. *)
Record UpdateData := {
  dQuantity : option Z;
  dReserved : option Z;
  dAvailable : option Z;
  dLowStockThreshold : option Z;
  dIsTracked : option bool;
}.

Definition applyData (d : UpdateData) (r : ProductInventory) : ProductInventory :=
  {| productId := productId r;
     quantity := default (quantity r) (dQuantity d);
     reserved := default (reserved r) (dReserved d);
     available := default (available r) (dAvailable d);
     lowStockThreshold := default (lowStockThreshold r) (dLowStockThreshold d);
     isTracked := default (isTracked r) (dIsTracked d);
     product := product r |}.

(** The injected [PrismaService], seen from the service: the writes the
    database behind it rejects (a lost connection, a constraint, a
    time-out).  A rejected write throws and writes nothing. *)
Record PrismaService := {
  rejectsUpdate : string -> UpdateData -> bool;
  rejectsCreate : InventoryTransaction -> bool;
}.

(** A database that accepts every write. *)
Definition accepting : PrismaService :=
  {| rejectsUpdate := fun _ _ => false; rejectsCreate := fun _ => false |}.

(** ** The service methods, for any [PrismaService] *)

Module Service.
Section WithPrisma.
Variable prisma : PrismaService.

(** [prisma.productInventory.findUnique({ where: { productId } })] *)
Definition findUnique (pid : string) : M (option ProductInventory) :=
  fun db => (inr (inventories db !! pid), db).

(** [prisma.productInventory.update({ where: { productId }, data })]:
    writes the row and returns it as written. *)
Definition update (pid : string) (d : UpdateData) : M ProductInventory :=
  fun db =>
    match inventories db !! pid with
    | None => (inl PrismaRecordNotFound, db)
    | Some r =>
        if rejectsUpdate prisma pid d then (inl PrismaRejected, db)
        else
          let r' := applyData d r in
          (inr r',
           {| inventories := <[pid := r']> (inventories db);
              transactions := transactions db;
              eventCalls := eventCalls db |})
    end.

(** [prisma.inventoryTransaction.create({ data })] *)
Definition createTransaction (t : InventoryTransaction) : M unit :=
  fun db =>
    if rejectsCreate prisma t then (inl PrismaRejected, db)
    else
      (inr tt,
       {| inventories := inventories db;
          transactions := transactions db ++ [t];
          eventCalls := eventCalls db |}).

(** [eventService.publishInventoryUpdated] / [publishLowStockAlert]: the
    service awaits the call and ignores the boolean it resolves to; the
    publisher catches what its channel throws. *)
Definition publishToEventService (e : ProductEvent) : M unit :=
  fun db =>
    (inr tt,
     {| inventories := inventories db;
        transactions := transactions db;
        eventCalls := eventCalls db ++ [e] |}).

Definition getInventory (pid : string) : M ProductInventory :=
  inventory <- findUnique pid ;;
  match inventory with
  | None => throw (NotFoundException "Inventory not found for this product")
  | Some inv => ret inv
  end.

(** In the transaction guard [quantity !== undefined && quantity !==
    previousQuantity] a [null] is neither [undefined] nor equal to a
    number; in [quantity > previousQuantity] and [quantity -
    previousQuantity] it counts as 0. *)
Definition updateInventory (pid : string) (dto : UpdateInventoryDto)
  : M ProductInventory :=
  inventory <- getInventory pid ;;
  let previousQuantity := quantity inventory in
  let quantity' := default (quantity inventory) (nullish (updQuantity dto)) in
  let reserved' := default (reserved inventory) (updReserved dto) in
  let available' := quantity' - reserved' in
  if available' <? 0 then
    throw (BadRequestException "Available quantity cannot be negative")
  else
    updatedInventory <-
      update pid {| dQuantity := Some quantity';
                    dReserved := Some reserved';
                    dAvailable := Some available';
                    dLowStockThreshold := updLowStockThreshold dto;
                    dIsTracked := updIsTracked dto |} ;;
    (match updQuantity dto with
     | Undefined => ret tt
     | Null =>
         createTransaction
           {| txProductId := pid;
              txType := if 0 >? previousQuantity then RESTOCK else ADJUSTMENT;
              txQuantity := 0 - previousQuantity;
              txReason := "Manual inventory update";
              txReference := None |}
     | Value q =>
         if negb (q =? previousQuantity) then
           createTransaction
             {| txProductId := pid;
                txType := if q >? previousQuantity then RESTOCK else ADJUSTMENT;
                txQuantity := q - previousQuantity;
                txReason := "Manual inventory update";
                txReference := None |}
         else ret tt
     end) ;;;
    publishToEventService
      (InventoryUpdatedEvent pid (sku (product updatedInventory))
         previousQuantity quantity' available') ;;;
    (if (available' <=? lowStockThreshold updatedInventory)
          && isTracked updatedInventory
     then
       publishToEventService
         (LowStockAlertEvent pid (sku (product updatedInventory))
            (name (product updatedInventory)) available'
            (lowStockThreshold updatedInventory))
     else ret tt) ;;;
    ret updatedInventory.

Definition reserveInventory (reserveDto : ReserveInventoryDto)
  : M ProductInventory :=
  inventory <- getInventory (resProductId reserveDto) ;;
  if available inventory <? resQuantity reserveDto then
    throw (BadRequestException
             ("Insufficient inventory. Available: " +:+ show (available inventory)
              +:+ ", Requested: " +:+ show (resQuantity reserveDto)))
  else
    updatedInventory <-
      update (resProductId reserveDto)
        {| dQuantity := None;
           dReserved := Some (reserved inventory + resQuantity reserveDto);
           dAvailable := Some (available inventory - resQuantity reserveDto);
           dLowStockThreshold := None;
           dIsTracked := None |} ;;
    createTransaction
      {| txProductId := resProductId reserveDto;
         txType := RESERVE;
         txQuantity := - resQuantity reserveDto;
         txReason := "Inventory reservation";
         txReference := resReference reserveDto |} ;;;
    ret updatedInventory.

Definition releaseInventory (releaseDto : ReleaseInventoryDto)
  : M ProductInventory :=
  inventory <- getInventory (relProductId releaseDto) ;;
  if reserved inventory <? relQuantity releaseDto then
    throw (BadRequestException
             ("Cannot release more than reserved. Reserved: "
              +:+ show (reserved inventory)
              +:+ ", Requested: " +:+ show (relQuantity releaseDto)))
  else
    updatedInventory <-
      update (relProductId releaseDto)
        {| dQuantity := None;
           dReserved := Some (reserved inventory - relQuantity releaseDto);
           dAvailable := Some (available inventory + relQuantity releaseDto);
           dLowStockThreshold := None;
           dIsTracked := None |} ;;
    createTransaction
      {| txProductId := relProductId releaseDto;
         txType := RELEASE;
         txQuantity := relQuantity releaseDto;
         txReason := "Inventory release";
         txReference := relReference releaseDto |} ;;;
    ret updatedInventory.

Definition deductInventory (pid : string) (qty : Z) (reference : option string)
  : M ProductInventory :=
  inventory <- getInventory pid ;;
  let deductFromReserved := Z.min (reserved inventory) qty in
  let deductFromAvailable := qty - deductFromReserved in
  if deductFromAvailable >? available inventory then
    throw (BadRequestException "Insufficient inventory")
  else
    updatedInventory <-
      update pid
        {| dQuantity := Some (quantity inventory - qty);
           dReserved := Some (reserved inventory - deductFromReserved);
           dAvailable := Some (available inventory - deductFromAvailable);
           dLowStockThreshold := None;
           dIsTracked := None |} ;;
    createTransaction
      {| txProductId := pid;
         txType := SALE;
         txQuantity := - qty;
         txReason := "Inventory deduction for order";
         txReference := reference |} ;;;
    (if (available updatedInventory <=? lowStockThreshold updatedInventory)
          && isTracked updatedInventory
     then
       publishToEventService
         (LowStockAlertEvent pid (sku (product updatedInventory))
            (name (product updatedInventory)) (available updatedInventory)
            (lowStockThreshold updatedInventory))
     else ret tt) ;;;
    ret updatedInventory.

End WithPrisma.
End Service.

(** ** The service on a database that accepts every write *)

Definition findUnique := Service.findUnique.
Definition update := Service.update accepting.
Definition createTransaction := Service.createTransaction accepting.
Definition publishToEventService := Service.publishToEventService.
Definition getInventory := Service.getInventory.
Definition updateInventory := Service.updateInventory accepting.
Definition reserveInventory := Service.reserveInventory accepting.
Definition releaseInventory := Service.releaseInventory accepting.
Definition deductInventory := Service.deductInventory accepting.

(** [orderBy: { available: 'asc' }]: rows in ascending order of
    [available]; rows with equal [available] keep the order of the scan. *)
Fixpoint insertByAvailable (r : ProductInventory) (l : list ProductInventory)
  : list ProductInventory :=
  match l with
  | [] => [r]
  | x :: l' =>
      if available r <? available x then r :: x :: l'
      else x :: insertByAvailable r l'
  end.

Definition orderByAvailable (l : list ProductInventory) : list ProductInventory :=
  foldr insertByAvailable [] (rev l).

(** The rows of the table, in the order of the scan. *)
Definition rows (db : Db) : list ProductInventory :=
  (map_to_list (inventories db)).*2.

(** [prisma.productInventory.findMany] with the [where] clause of
    [getLowStockProducts]: [isTracked: true] and
    [available: { lte: threshold ?? fields.lowStockThreshold }], the field
    reference standing for the row's own column. *)
Definition findManyLowStock (threshold : option Z) : M (list ProductInventory) :=
  fun db =>
    (inr (orderByAvailable
            (List.filter
               (fun inv =>
                  isTracked inv
                  && (available inv <=? default (lowStockThreshold inv) threshold))
               (rows db))),
     db).

Definition getLowStockProducts (threshold : option Z) : M (list ProductInventory) :=
  products <- findManyLowStock threshold ;;
  ret (List.filter (fun inv => available inv <=? lowStockThreshold inv) products).

End Inventory.

(* ===================================================================== *)
(** * What the service methods write *)
(* ===================================================================== *)

(** The rows, transactions and events read off the method bodies.  The
    lemmas of [InventoryFacts] prove that the methods compute them. *)
Module Outcome.
Import Inventory.

(** The row [updateInventory] writes. *)
Definition updatedRow (dto : UpdateInventoryDto) (r : ProductInventory)
  : ProductInventory :=
  let q := default (quantity r) (nullish (updQuantity dto)) in
  let rs := default (reserved r) (updReserved dto) in
  applyData {| dQuantity := Some q; dReserved := Some rs;
               dAvailable := Some (q - rs);
               dLowStockThreshold := updLowStockThreshold dto;
               dIsTracked := updIsTracked dto |} r.

(** The transaction rows [updateInventory] appends. *)
Definition updateTransactions (pid : string) (dto : UpdateInventoryDto)
    (r : ProductInventory) : list InventoryTransaction :=
  match updQuantity dto with
  | Undefined => []
  | Null =>
      [ {| txProductId := pid;
           txType := if 0 >? quantity r then RESTOCK else ADJUSTMENT;
           txQuantity := 0 - quantity r;
           txReason := "Manual inventory update";
           txReference := None |} ]
  | Value q =>
      if negb (q =? quantity r) then
        [ {| txProductId := pid;
             txType := if q >? quantity r then RESTOCK else ADJUSTMENT;
             txQuantity := q - quantity r;
             txReason := "Manual inventory update";
             txReference := None |} ]
      else []
  end.

(** The events [updateInventory] hands to the event service. *)
Definition updateEvents (pid : string) (dto : UpdateInventoryDto)
    (r : ProductInventory) : list ProductEvent :=
  let r' := updatedRow dto r in
  InventoryUpdatedEvent pid (sku (product r')) (quantity r) (quantity r')
    (available r')
  :: (if (available r' <=? lowStockThreshold r') && isTracked r'
      then [LowStockAlertEvent pid (sku (product r')) (name (product r'))
              (available r') (lowStockThreshold r')]
      else []).

(** The row [reserveInventory] writes. *)
Definition reservedRow (q : Z) (r : ProductInventory) : ProductInventory :=
  applyData {| dQuantity := None; dReserved := Some (reserved r + q);
               dAvailable := Some (available r - q);
               dLowStockThreshold := None; dIsTracked := None |} r.

(** The row [releaseInventory] writes. *)
Definition releasedRow (q : Z) (r : ProductInventory) : ProductInventory :=
  applyData {| dQuantity := None; dReserved := Some (reserved r - q);
               dAvailable := Some (available r + q);
               dLowStockThreshold := None; dIsTracked := None |} r.

(** The row [deductInventory] writes. *)
Definition deductedRow (q : Z) (r : ProductInventory) : ProductInventory :=
  let fromReserved := Z.min (reserved r) q in
  applyData {| dQuantity := Some (quantity r - q);
               dReserved := Some (reserved r - fromReserved);
               dAvailable := Some (available r - (q - fromReserved));
               dLowStockThreshold := None; dIsTracked := None |} r.

(** The test a row passes to be listed: tracked, at or below its own
    threshold, and at or below the override when there is one. *)
Definition listed (threshold : option Z) (inv : ProductInventory) : bool :=
  isTracked inv
  && (available inv <=?
        match threshold with
        | Some t => Z.min t (lowStockThreshold inv)
        | None => lowStockThreshold inv
        end).

End Outcome.

(* ===================================================================== *)
(** * Sequences of ledger calls on one product *)
(* ===================================================================== *)

Module Ledger.
Import Inventory Outcome.

(** The four mutating entry points, as requests on one product. *)
Inductive LedgerCall :=
| Update (dto : UpdateInventoryDto)
| Reserve (qty : Z) (reference : option string)
| Release (qty : Z) (reference : option string)
| Deduct (qty : Z) (reference : option string).

Definition call (pid : string) (c : LedgerCall) : M ProductInventory :=
  match c with
  | Update dto => updateInventory pid dto
  | Reserve q ref =>
      reserveInventory
        {| resProductId := pid; resQuantity := q; resReference := ref |}
  | Release q ref =>
      releaseInventory
        {| relProductId := pid; relQuantity := q; relReference := ref |}
  | Deduct q ref => deductInventory pid q ref
  end.

(** The same request against any database. *)
Definition callOn (prisma : PrismaService) (pid : string) (c : LedgerCall)
  : M ProductInventory :=
  match c with
  | Update dto => Service.updateInventory prisma pid dto
  | Reserve q ref =>
      Service.reserveInventory prisma
        {| resProductId := pid; resQuantity := q; resReference := ref |}
  | Release q ref =>
      Service.releaseInventory prisma
        {| relProductId := pid; relQuantity := q; relReference := ref |}
  | Deduct q ref => Service.deductInventory prisma pid q ref
  end.

(** The store after a sequence of calls, each served whether or not the
    ones before it failed. *)
Definition runCalls (pid : string) (cs : list LedgerCall) (db : Db) : Db :=
  foldl (fun d c => snd (call pid c d)) db cs.

(** The invariant of the data model. *)
Definition ledgerInvariant (r : ProductInventory) : Prop :=
  available r = quantity r - reserved r /\
  0 <= quantity r /\ 0 <= reserved r /\ 0 <= available r.

(** An optional amount is not negative. *)
Definition nonnegOpt (o : option Z) : Prop :=
  match o with Some z => 0 <= z | None => True end.

(** The amount a request reserves, releases or sets as reserved is not
    negative. *)
Definition nonnegCall (c : LedgerCall) : Prop :=
  match c with
  | Update dto => nonnegOpt (updReserved dto)
  | Reserve q _ | Release q _ => 0 <= q
  | Deduct _ _ => True
  end.

(** A request that does not carry a [null] quantity. *)
Definition nullFree (c : LedgerCall) : Prop :=
  match c with
  | Update dto => updQuantity dto <> Null
  | Reserve _ _ | Release _ _ | Deduct _ _ => True
  end.

(** The row a call writes when it succeeds. *)
Definition writtenRow (c : LedgerCall) (r : ProductInventory) : ProductInventory :=
  match c with
  | Update dto => updatedRow dto r
  | Reserve q _ => reservedRow q r
  | Release q _ => releasedRow q r
  | Deduct q _ => deductedRow q r
  end.

(** The number of transaction rows a successful call appends when it
    carries no [null] quantity. *)
Definition appendedRows (c : LedgerCall) (r : ProductInventory) : nat :=
  match c with
  | Update dto =>
      if decide (default (quantity r) (nullish (updQuantity dto)) = quantity r)
      then 0%nat else 1%nat
  | Reserve _ _ | Release _ _ | Deduct _ _ => 1%nat
  end.

End Ledger.

(* ===================================================================== *)
(** * The event publishers *)
(* ===================================================================== *)

(** What a publisher does to the outside world, in the order it happens: a
    pass through its [try] block for a routing key, and the wait
    [setTimeout(resolve, ms)] before a retry. *)
Inductive Effect :=
| Attempt (routingKey : string) (retries : nat)
| Sleep (ms : Z).

Definition isAttempt (e : Effect) : bool :=
  match e with Attempt _ _ => true | Sleep _ => false end.

Definition attempts (effects : list Effect) : nat :=
  length (List.filter isAttempt effects).

(** [try { body } catch (error) { handler }] on a body that either throws
    or returns. *)
Definition tryCatch {E A} (body : E + A) (handler : E -> E + A) : E + A :=
  match body with
  | inl error => handler error
  | inr a => inr a
  end.

(** ** The retrying publisher of the user service: [publishEvent] *)

Module UserEventService.

Definition maxRetries : nat := 3.
Definition retryDelay : Z := 5000.

(** What the connection and the broker do to one pass through the [try]
    block. *)
Inductive AttemptOutcome :=
| NotReady                          (* ensureConnection() resolved to false *)
| PublishReturned (published : bool) (* channel.publish(...) returned *)
| PublishThrew (error : string).    (* JSON.stringify or channel.publish threw *)

(** The [try] block of [publishEvent]. *)
Definition tryBlock (o : AttemptOutcome) : string + bool :=
  match o with
  | NotReady => inl "RabbitMQ connection not available"
  | PublishReturned true => inr true
  | PublishReturned false => inl "Failed to publish message to exchange"
  | PublishThrew error => inl error
  end.

(** A pass fails when its [try] block throws. *)
Definition fails (o : AttemptOutcome) : bool :=
  match tryBlock o with inl _ => true | inr _ => false end.

(** The passes numbered [start], ..., [start + more] for one routing key,
    with the wait before each one but the first. *)
Fixpoint schedule (eventType : string) (start more : nat) : list Effect :=
  match more with
  | O => [Attempt eventType start]
  | S k =>
      Attempt eventType start :: Sleep retryDelay
        :: schedule eventType (S start) k
  end.

Section PublishEvent.
Context {Data : Type}.

(** The outside world: the outcome of the pass made for [eventType] and
    [data] when [retries] has the given value. *)
Variable broker : string -> Data -> nat -> AttemptOutcome.

(** [publishEvent(eventType, data, retries = 0)].  The result is what the
    promise settles to ([inl]: rejected, [inr]: resolved) and the effects
    in order. *)
Equations? publishEvent (eventType : string) (data : Data) (retries : nat)
  : (string + bool) * list Effect by wf (maxRetries - retries)%nat lt :=
  publishEvent eventType data retries
    with tryBlock (broker eventType data retries) => {
    | inr published => (inr published, [Attempt eventType retries]);
    | inl error with lt_dec retries maxRetries => {
      | left _ =>
          let '(result, effects) := publishEvent eventType data (S retries) in
          (result, Attempt eventType retries :: Sleep retryDelay :: effects);
      | right _ => (inr false, [Attempt eventType retries]) } }.
Proof. unfold maxRetries in *. lia. Qed.

End PublishEvent.

End UserEventService.

(** ** The publisher of the product service: [publish] *)

Module ProductEventService.

Record EventService := {
  isConnected : bool;
  channel : bool;   (* [this.channel] is not null *)
}.

(** What [this.channel.publish(...)] does: it returns (the boolean is not
    looked at) or it throws. *)
Inductive ChannelPublish :=
| Returned (flushed : bool)
| Threw (error : string).

Section Publish.
Context {Data : Type}.
Variable channelPublish : string -> Data -> ChannelPublish.

(** [publish(routingKey, data)] *)
Definition publish (svc : EventService) (routingKey : string) (data : Data)
  : (string + bool) * list Effect :=
  if negb (isConnected svc) || negb (channel svc) then (inr false, [])
  else
    (tryCatch
       (match channelPublish routingKey data with
        | Returned _ => inr true
        | Threw error => inl error
        end)
       (fun _ => inr false),
     [Attempt routingKey 0]).

End Publish.

End ProductEventService.

(* ===================================================================== *)
(** * Scenarios *)
(* ===================================================================== *)

Module Scenario.
Import Inventory Ledger UserEventService.

(** A store with one tracked product: 100 units on hand, none reserved,
    threshold 10 (the scenario of the specification). *)
Definition widget : ProductRef :=
  {| id := "p1"; name := "Widget"; sku := "W-1" |}.

Definition widgetRow : ProductInventory :=
  {| productId := "p1"; quantity := 100; reserved := 0; available := 100;
     lowStockThreshold := 10; isTracked := true; product := widget |}.

Definition widgetDb : Db :=
  {| inventories := {[ "p1" := widgetRow ]}; transactions := []; eventCalls := [] |}.

(** A reservation of minus five units of the widget. *)
Definition negativeReserve : ReserveInventoryDto :=
  {| resProductId := "p1"; resQuantity := -5; resReference := None |}.

(** A store whose widget row carries a negative [reserved]: the state a
    reservation of minus five units leaves. *)
Definition overdrawnRow : ProductInventory :=
  {| productId := "p1"; quantity := 100; reserved := -5; available := 105;
     lowStockThreshold := 10; isTracked := true; product := widget |}.

Definition overdrawnDb : Db :=
  {| inventories := {[ "p1" := overdrawnRow ]};
     transactions :=
       [ {| txProductId := "p1"; txType := RESERVE; txQuantity := 5;
            txReason := "Inventory reservation"; txReference := None |} ];
     eventCalls := [] |}.

(** A database that takes the row updates and rejects every
    [inventoryTransaction.create]. *)
Definition rejectingCreate : PrismaService :=
  {| rejectsUpdate := fun _ _ => false; rejectsCreate := fun _ => true |}.

(** The widget after all of its 100 units were reserved. *)
Definition fullyReserved : list LedgerCall := [Reserve 100 None].

(** An update whose body is [{ quantity: null }]. *)
Definition nullQuantity : UpdateInventoryDto :=
  {| updQuantity := Null; updReserved := None;
     updLowStockThreshold := None; updIsTracked := None |}.

(** An update that only moves five units into [reserved]. *)
Definition reserveFive : UpdateInventoryDto :=
  {| updQuantity := Undefined; updReserved := Some 5;
     updLowStockThreshold := None; updIsTracked := None |}.

(** Two tracked rows with thresholds 10 and 3 and available amounts 8 and
    4 (the low-stock example of the specification). *)
Definition twoRows : Db :=
  {| inventories :=
       {[ "a" := {| productId := "a"; quantity := 8; reserved := 0; available := 8;
                    lowStockThreshold := 10; isTracked := true;
                    product := {| id := "a"; name := "A"; sku := "A-1" |} |};
          "b" := {| productId := "b"; quantity := 4; reserved := 0; available := 4;
                    lowStockThreshold := 3; isTracked := true;
                    product := {| id := "b"; name := "B"; sku := "B-1" |} |} ]};
     transactions := []; eventCalls := [] |}.

(** A broker that refuses the first three passes and takes the fourth. *)
Definition thirdTimeUnlucky (eventType data : string) (retries : nat)
  : AttemptOutcome :=
  PublishReturned (3 <=? retries)%nat.

End Scenario.

(* ===================================================================== *)
(** * Reading the transaction log *)
(* ===================================================================== *)

Module History.
Import Inventory.

(** The value of [Math.ceil(total / limit)]: an integer, or one of the two
    values a division by zero gives.  Negative zero is the integer 0. *)
Inductive JsNumber :=
| Num (z : Z)
| PosInfinity
| NaN.

(** [Math.ceil(total / limit)] for a row count [total >= 0]. *)
Definition mathCeilDiv (total limit : Z) : JsNumber :=
  if limit =? 0 then (if total =? 0 then NaN else PosInfinity)
  else Num (- ((- total) / limit)).

(** The object [getTransactionHistory] resolves to. *)
Record TransactionPage := {
  data : list InventoryTransaction;
  total : Z;
  page : Z;
  limit : Z;
  totalPages : JsNumber;
}.

(** Prisma refuses a negative [skip]. *)
Inductive PrismaValidationError :=
| InvalidSkip (found : Z).

(** The transactions of a product, the most recently created first
    ([orderBy: { createdAt: 'desc' }]).  The log holds the rows in the order
    they were created. *)
Definition history (pid : string) (db : Db) : list InventoryTransaction :=
  rev (List.filter (fun t => String.eqb (txProductId t) pid) (transactions db)).

(** [prisma.inventoryTransaction.findMany({ where: { productId }, orderBy,
    skip, take })].  A negative [take] pages backwards: it counts [skip] and
    [take] from the end of the ordered rows and keeps their order. *)
Definition findManyTransactions (pid : string) (skip take : Z) (db : Db)
  : PrismaValidationError + list InventoryTransaction :=
  if skip <? 0 then inl (InvalidSkip skip)
  else if 0 <=? take then
    inr (firstn (Z.to_nat take) (skipn (Z.to_nat skip) (history pid db)))
  else
    inr (rev (firstn (Z.to_nat (- take))
                (skipn (Z.to_nat skip) (rev (history pid db))))).

(** [prisma.inventoryTransaction.count({ where: { productId } })] *)
Definition countTransactions (pid : string) (db : Db) : Z :=
  Z.of_nat (length (history pid db)).

(** [getTransactionHistory(productId, page, limit)]: a read, so the store
    comes back as it went in. *)
Definition getTransactionHistory (pid : string) (page limit : Z) (db : Db)
  : (PrismaValidationError + TransactionPage) * Db :=
  let skip := (page - 1) * limit in
  match findManyTransactions pid skip limit db with
  | inl e => (inl e, db)
  | inr transactions =>
      let total := countTransactions pid db in
      (inr {| data := transactions; total := total; page := page;
              limit := limit; totalPages := mathCeilDiv total limit |},
       db)
  end.

(** [x || d] on an optional number: [undefined] and [0] give [d]. *)
Definition orDefault (x : option Z) (d : Z) : Z :=
  match x with
  | Some z => if z =? 0 then d else z
  | None => d
  end.

(** The route [GET inventory/:productId/transactions] of the controller:
    [getTransactionHistory(productId, page || 1, limit || 20)]. *)
Definition getTransactionHistoryRoute (pid : string) (page limit : option Z)
    (db : Db) : (PrismaValidationError + TransactionPage) * Db :=
  getTransactionHistory pid (orDefault page 1) (orDefault limit 20) db.

(** The pages numbered [1], ..., [n] of a product's history, one after the
    other; a page that fails contributes nothing. *)
Definition pagesUpTo (pid : string) (limit : Z) (n : nat) (db : Db)
  : list InventoryTransaction :=
  concat
    (map (fun i =>
            match fst (getTransactionHistory pid (Z.of_nat (S i)) limit db) with
            | inr p => data p
            | inl _ => []
            end)
       (seq 0 n)).

End History.

(* ===================================================================== *)
(** * What the log says about the stock *)
(* ===================================================================== *)

Module LedgerLog.
Import Inventory Ledger.




End LedgerLog.

(* ===================================================================== *)
(** * What a ledger call appends and publishes *)
(* ===================================================================== *)

Module CallEffects.
Import Inventory Outcome Ledger.

(** The transaction rows a call appends when it succeeds on the row [r]. *)
Definition callTransactions (pid : string) (c : LedgerCall) (r : ProductInventory)
  : list InventoryTransaction :=
  match c with
  | Update dto => updateTransactions pid dto r
  | Reserve q ref =>
      [ {| txProductId := pid; txType := RESERVE; txQuantity := - q;
           txReason := "Inventory reservation"; txReference := ref |} ]
  | Release q ref =>
      [ {| txProductId := pid; txType := RELEASE; txQuantity := q;
           txReason := "Inventory release"; txReference := ref |} ]
  | Deduct q ref =>
      [ {| txProductId := pid; txType := SALE; txQuantity := - q;
           txReason := "Inventory deduction for order"; txReference := ref |} ]
  end.

(** The events a call hands to the event service when it succeeds on the
    row [r]. *)
Definition callEvents (pid : string) (c : LedgerCall) (r : ProductInventory)
  : list ProductEvent :=
  match c with
  | Update dto => updateEvents pid dto r
  | Reserve _ _ | Release _ _ => []
  | Deduct q _ =>
      let r' := deductedRow q r in
      if (available r' <=? lowStockThreshold r') && isTracked r'
      then [LowStockAlertEvent pid (sku (product r')) (name (product r'))
              (available r') (lowStockThreshold r')]
      else []
  end.

End CallEffects.

(* ===================================================================== *)
(** * Time spent waiting by a publisher *)
(* ===================================================================== *)

Module Waiting.

(** The milliseconds a run of effects spends in [setTimeout] waits. *)
Definition waited (effects : list Effect) : Z :=
  foldr (fun e acc => match e with Sleep ms => ms + acc | Attempt _ _ => acc end)
    0 effects.

(** A connection that is never ready. *)
Definition neverReady (eventType data : string) (retries : nat)
  : UserEventService.AttemptOutcome :=
  UserEventService.NotReady.

End Waiting.

(* ===================================================================== *)
(** * The category service *)
(* ===================================================================== *)

(** [CategoryService] of
    [apps/product-service/src/category/category.service.ts].  The Prisma
    schema is not among the sources: a table is a finite map on its primary
    key, and no other constraint of the database (a unique index on [slug],
    the foreign keys of [parentId] and [categoryId]) is modelled, so what is
    shown below is what the checks of the service itself guarantee.  The key
    of a new row is the database's choice and is a parameter of [create]. *)
Module Category.

(** A row of [productCategory]. *)
Record ProductCategory := {
  id : string;
  name : string;
  description : string;
  parentId : option string;
  slug : string;
}.

Record CreateCategoryDto := {
  crName : string;
  crDescription : string;
  crParentId : option string;
  crSlug : string;
}.

Record UpdateCategoryDto := {
  upName : option string;
  upDescription : option string;
  upParentId : option string;
  upSlug : option string;
}.

Inductive Exception :=
| NotFoundException (message : string)
| ConflictException (message : string)
| PrismaUniqueViolation
| PrismaRecordNotFound.

(** The tables the service reads and writes; of a product only the
    category it belongs to matters here ([product id -> categoryId]). *)
Record Catalog := {
  categories : gmap string ProductCategory;
  productCategory : gmap string string;
}.

(** A category with the relations [include: { parent: true, children:
    true }] loads, and the number of its products where [_count] is
    selected.  The ten most recent products [findOne] also loads are left
    out. *)
Record CategoryView := {
  category : ProductCategory;
  parent : option ProductCategory;
  children : list ProductCategory;
  productCount : option nat;
}.

Definition M (A : Type) : Type := Catalog -> (Exception + A) * Catalog.

Definition ret {A} (a : A) : M A := fun db => (inr a, db).

Definition throw {A} (e : Exception) : M A := fun db => (inl e, db).

Definition bind {A B} (m : M A) (k : A -> M B) : M B :=
  fun db =>
    match m db with
    | (inl e, db') => (inl e, db')
    | (inr a, db') => k a db'
    end.

Notation "x <- m ;; k" := (bind m (fun x => k))
  (at level 100, m at next level, right associativity).
Notation "m ;;; k" := (bind m (fun _ => k))
  (at level 100, right associativity).

(** [if (s)] on an optional string: [undefined] and the empty string are
    falsy. *)
Definition truthy (s : option string) : bool :=
  match s with
  | Some s' => negb (String.eqb s' "")
  | None => false
  end.

(** The rows of the category table, in the order of the scan. *)
Definition rows (db : Catalog) : list ProductCategory :=
  (map_to_list (categories db)).*2.

Definition childrenOf (i : string) (db : Catalog) : list ProductCategory :=
  List.filter
    (fun c => match parentId c with
              | Some p => String.eqb p i
              | None => false
              end)
    (rows db).

Definition productsOf (i : string) (db : Catalog) : list string :=
  List.filter (fun c => String.eqb c i) (map_to_list (productCategory db)).*2.

Definition view (withCount : bool) (c : ProductCategory) (db : Catalog)
  : CategoryView :=
  {| category := c;
     parent := match parentId c with
               | Some p => categories db !! p
               | None => None
               end;
     children := childrenOf (id c) db;
     productCount :=
       if withCount then Some (length (productsOf (id c) db)) else None |}.

(** [prisma.productCategory.findUnique({ where: { id } })] *)
Definition findUniqueById (i : string) : M (option ProductCategory) :=
  fun db => (inr (categories db !! i), db).

(** [prisma.productCategory.findUnique({ where: { slug } })] *)
Definition findUniqueBySlug (s : string) : M (option ProductCategory) :=
  fun db => (inr (List.find (fun c => String.eqb (slug c) s) (rows db)), db).

(** [prisma.productCategory.findFirst({ where: { slug, NOT: { id } } })] *)
Definition findFirstOtherWithSlug (s i : string) : M (option ProductCategory) :=
  fun db =>
    (inr (List.find
            (fun c => String.eqb (slug c) s && negb (String.eqb (id c) i))
            (rows db)),
     db).

(** [prisma.productCategory.create({ data })] with the key [newId] the
    database gives the row. *)
Definition createRow (newId : string) (dto : CreateCategoryDto)
  : M ProductCategory :=
  fun db =>
    match categories db !! newId with
    | Some _ => (inl PrismaUniqueViolation, db)
    | None =>
        let c := {| id := newId; name := crName dto;
                    description := crDescription dto;
                    parentId := crParentId dto; slug := crSlug dto |} in
        (inr c,
         {| categories := <[newId := c]> (categories db);
            productCategory := productCategory db |})
    end.

(** [prisma.productCategory.update({ where: { id }, data })]: a field the
    request leaves [undefined] is not written. *)
Definition updateRow (i : string) (dto : UpdateCategoryDto) : M ProductCategory :=
  fun db =>
    match categories db !! i with
    | None => (inl PrismaRecordNotFound, db)
    | Some c =>
        let c' := {| id := id c;
                     name := default (name c) (upName dto);
                     description := default (description c) (upDescription dto);
                     parentId := match upParentId dto with
                                 | Some p => Some p
                                 | None => parentId c
                                 end;
                     slug := default (slug c) (upSlug dto) |} in
        (inr c',
         {| categories := <[i := c']> (categories db);
            productCategory := productCategory db |})
    end.

(** [prisma.productCategory.delete({ where: { id } })] *)
Definition deleteRow (i : string) : M unit :=
  fun db =>
    match categories db !! i with
    | None => (inl PrismaRecordNotFound, db)
    | Some _ =>
        (inr tt,
         {| categories := delete i (categories db);
            productCategory := productCategory db |})
    end.

(** [prisma.product.count({ where: { categoryId: id } })] *)
Definition countProducts (i : string) : M nat :=
  fun db => (inr (length (productsOf i db)), db).

(** [prisma.productCategory.count({ where: { parentId: id } })] *)
Definition countChildren (i : string) : M nat :=
  fun db => (inr (length (childrenOf i db)), db).

(** ** The service methods *)

Definition create (newId : string) (createCategoryDto : CreateCategoryDto)
  : M CategoryView :=
  existingCategory <- findUniqueBySlug (crSlug createCategoryDto) ;;
  match existingCategory with
  | Some _ => throw (ConflictException "Category with this slug already exists")
  | None =>
      (if truthy (crParentId createCategoryDto) then
         parent <- findUniqueById (default "" (crParentId createCategoryDto)) ;;
         match parent with
         | None => throw (NotFoundException "Parent category not found")
         | Some _ => ret tt
         end
       else ret tt) ;;;
      category <- createRow newId createCategoryDto ;;
      fun db => (inr (view false category db), db)
  end.

Definition findOne (i : string) : M CategoryView :=
  category <- findUniqueById i ;;
  match category with
  | None => throw (NotFoundException "Category not found")
  | Some c => fun db => (inr (view true c db), db)
  end.

Definition findBySlug (s : string) : M CategoryView :=
  category <- findUniqueBySlug s ;;
  match category with
  | None => throw (NotFoundException "Category not found")
  | Some c => fun db => (inr (view true c db), db)
  end.

Definition update (i : string) (updateCategoryDto : UpdateCategoryDto)
  : M CategoryView :=
  findOne i ;;;
  (if truthy (upSlug updateCategoryDto) then
     existing <- findFirstOtherWithSlug (default "" (upSlug updateCategoryDto)) i ;;
     match existing with
     | Some _ => throw (ConflictException "Category with this slug already exists")
     | None => ret tt
     end
   else ret tt) ;;;
  category <- updateRow i updateCategoryDto ;;
  fun db => (inr (view false category db), db).

Definition delete (i : string) : M unit :=
  findOne i ;;;
  productCount <- countProducts i ;;
  if (0 <? productCount)%nat then
    throw (ConflictException
             "Cannot delete category with products. Move or delete products first.")
  else
    childCount <- countChildren i ;;
    if (0 <? childCount)%nat then
      throw (ConflictException
               "Cannot delete category with subcategories. Delete subcategories first.")
    else deleteRow i.

(** ** Sequences of requests *)

Inductive Request :=
| Create (newId : string) (dto : CreateCategoryDto)
| Update (i : string) (dto : UpdateCategoryDto)
| Delete (i : string).

(** The catalog after a request, served or refused. *)
Definition serve (db : Catalog) (r : Request) : Catalog :=
  match r with
  | Create newId dto => snd (create newId dto db)
  | Update i dto => snd (update i dto db)
  | Delete i => snd (delete i db)
  end.

Definition serveAll (rs : list Request) (db : Catalog) : Catalog :=
  foldl serve db rs.

(** ** Shape of the catalog *)

(** Every row is stored under its own [id]. *)
Definition keyed (db : Catalog) : Prop :=
  forall i c, categories db !! i = Some c -> id c = i.

(** No two categories share a slug. *)
Definition slugsUnique (db : Catalog) : Prop :=
  forall i j ci cj,
    categories db !! i = Some ci -> categories db !! j = Some cj ->
    slug ci = slug cj -> i = j.

(** Every parent a category names is a category. *)
Definition parentsExist (db : Catalog) : Prop :=
  forall i c p,
    categories db !! i = Some c -> parentId c = Some p ->
    is_Some (categories db !! p).

(** A request that does not set an empty slug. *)
Definition slugSafe (r : Request) : Prop :=
  match r with
  | Update _ dto => upSlug dto <> Some ""
  | Create _ _ | Delete _ => True
  end.

(** A request that does not name an empty parent and, for an update, does
    not move the category. *)
Definition parentSafe (r : Request) : Prop :=
  match r with
  | Create _ dto => crParentId dto <> Some ""
  | Update _ dto => upParentId dto = None
  | Delete _ => True
  end.

End Category.

(** The rows and the catalog the writes of the category service leave. *)
Module CategoryOutcome.
Import Category.

(** The row [createRow] writes. *)
Definition newRow (newId : string) (dto : CreateCategoryDto) : ProductCategory :=
  {| id := newId; name := crName dto; description := crDescription dto;
     parentId := crParentId dto; slug := crSlug dto |}.

(** The row [updateRow] writes. *)
Definition changedRow (dto : UpdateCategoryDto) (c : ProductCategory)
  : ProductCategory :=
  {| id := id c;
     name := default (name c) (upName dto);
     description := default (description c) (upDescription dto);
     parentId := match upParentId dto with
                 | Some p => Some p
                 | None => parentId c
                 end;
     slug := default (slug c) (upSlug dto) |}.

Definition withCategories (m : gmap string ProductCategory) (db : Catalog)
  : Catalog :=
  {| categories := m; productCategory := productCategory db |}.

(** The exception a request is refused with, if it is. *)
Definition thrown {A} (result : Exception + A) : option Exception :=
  match result with
  | inl e => Some e
  | inr _ => None
  end.

Definition refusal (db : Catalog) (r : Request) : option Exception :=
  match r with
  | Create newId dto => thrown (fst (create newId dto db))
  | Update i dto => thrown (fst (update i dto db))
  | Delete i => thrown (fst (delete i db))
  end.

End CategoryOutcome.

(** A catalog with one root category, [audio], and one product in it. *)
Module CategoryScenario.
Import Category.

Definition audio : ProductCategory :=
  {| id := "c1"; name := "Audio"; description := "Sound"; parentId := None;
     slug := "audio" |}.

Definition audioCatalog : Catalog :=
  {| categories := {[ "c1" := audio ]};
     productCategory := {[ "p1" := "c1" ]} |}.

Definition headphonesDto : CreateCategoryDto :=
  {| crName := "Headphones"; crDescription := "On the ears";
     crParentId := Some "c1"; crSlug := "headphones" |}.

Definition renameTo (s : string) : UpdateCategoryDto :=
  {| upName := None; upDescription := None; upParentId := None;
     upSlug := Some s |}.

(** Four requests: a create with a taken slug, a create under [audio], an
    update of the new category to the slug of [audio], and a delete of
    [audio]. *)
Definition requests : list Request :=
  [ Create "c2" {| crName := "Again"; crDescription := ""; crParentId := None;
                   crSlug := "audio" |};
    Create "c2" headphonesDto;
    Update "c2" (renameTo "audio");
    Delete "c1" ].

End CategoryScenario.

(* ===================================================================== *)
(** * Running the service methods on a stored row *)
(* ===================================================================== *)

Module InventoryFacts.
Import Inventory Outcome Scenario.

Ltac unfold_service :=
  unfold updateInventory, reserveInventory, releaseInventory, deductInventory,
    getInventory, findUnique, update, createTransaction, publishToEventService;
  unfold Service.updateInventory, Service.reserveInventory,
    Service.releaseInventory, Service.deductInventory, Service.getInventory,
    Service.findUnique, Service.update, Service.createTransaction,
    Service.publishToEventService, bind, ret, throw;
  cbn [rejectsUpdate rejectsCreate accepting].

Ltac simpl_row :=
  cbn [applyData productId quantity reserved available lowStockThreshold
       isTracked product dQuantity dReserved dAvailable dLowStockThreshold
       dIsTracked default from_option Datatypes.id].

Lemma updateInventory_run db pid dto r :
  inventories db !! pid = Some r ->
  updateInventory pid dto db =
    if available (updatedRow dto r) <? 0 then
      (inl (BadRequestException "Available quantity cannot be negative"), db)
    else
      (inr (updatedRow dto r),
       {| inventories := <[pid := updatedRow dto r]> (inventories db);
          transactions := transactions db ++ updateTransactions pid dto r;
          eventCalls := eventCalls db ++ updateEvents pid dto r |}).
Proof.
  intros Hr. unfold_service. rewrite Hr. cbn [available updatedRow applyData default].
  destruct (_ <? 0) eqn:Hneg; [reflexivity |].
  cbn [inventories transactions eventCalls]. rewrite Hr.
  unfold updateTransactions, updateEvents, updatedRow.
  cbn [available quantity lowStockThreshold isTracked product applyData default].
  destruct (updQuantity dto) as [| | q]; cbn [nullish default];
    [| | destruct (negb (q =? quantity r))];
    cbn [inventories transactions eventCalls];
    destruct (_ && _);
    cbn [inventories transactions eventCalls];
    rewrite ?app_nil_r, <- ?app_assoc; reflexivity.
Qed.

Lemma reserveInventory_run db dto r :
  inventories db !! resProductId dto = Some r ->
  reserveInventory dto db =
    if available r <? resQuantity dto then
      (inl (BadRequestException
              ("Insufficient inventory. Available: " +:+ show (available r)
               +:+ ", Requested: " +:+ show (resQuantity dto))), db)
    else
      (inr (reservedRow (resQuantity dto) r),
       {| inventories :=
            <[resProductId dto := reservedRow (resQuantity dto) r]> (inventories db);
          transactions :=
            transactions db ++
            [ {| txProductId := resProductId dto; txType := RESERVE;
                 txQuantity := - resQuantity dto;
                 txReason := "Inventory reservation";
                 txReference := resReference dto |} ];
          eventCalls := eventCalls db |}).
Proof.
  intros Hr. unfold_service. rewrite Hr.
  destruct (_ <? _); [reflexivity |]. rewrite Hr. reflexivity.
Qed.

Lemma releaseInventory_run db dto r :
  inventories db !! relProductId dto = Some r ->
  releaseInventory dto db =
    if reserved r <? relQuantity dto then
      (inl (BadRequestException
              ("Cannot release more than reserved. Reserved: "
               +:+ show (reserved r)
               +:+ ", Requested: " +:+ show (relQuantity dto))), db)
    else
      (inr (releasedRow (relQuantity dto) r),
       {| inventories :=
            <[relProductId dto := releasedRow (relQuantity dto) r]> (inventories db);
          transactions :=
            transactions db ++
            [ {| txProductId := relProductId dto; txType := RELEASE;
                 txQuantity := relQuantity dto;
                 txReason := "Inventory release";
                 txReference := relReference dto |} ];
          eventCalls := eventCalls db |}).
Proof.
  intros Hr. unfold_service. rewrite Hr.
  destruct (_ <? _); [reflexivity |]. rewrite Hr. reflexivity.
Qed.

Lemma deductInventory_run db pid q reference r :
  inventories db !! pid = Some r ->
  deductInventory pid q reference db =
    if q - Z.min (reserved r) q >? available r then
      (inl (BadRequestException "Insufficient inventory"), db)
    else
      (inr (deductedRow q r),
       {| inventories := <[pid := deductedRow q r]> (inventories db);
          transactions :=
            transactions db ++
            [ {| txProductId := pid; txType := SALE; txQuantity := - q;
                 txReason := "Inventory deduction for order";
                 txReference := reference |} ];
          eventCalls :=
            eventCalls db ++
            (let r' := deductedRow q r in
             if (available r' <=? lowStockThreshold r') && isTracked r'
             then [LowStockAlertEvent pid (sku (product r')) (name (product r'))
                     (available r') (lowStockThreshold r')]
             else []) |}).
Proof.
  intros Hr. unfold_service. rewrite Hr. cbn zeta.
  destruct (_ >? _); [reflexivity |]. rewrite Hr.
  cbn [inventories transactions eventCalls].
  unfold deductedRow.
  cbn [available lowStockThreshold isTracked product applyData default].
  destruct (_ && _); cbn [inventories transactions eventCalls];
    rewrite ?app_nil_r; reflexivity.
Qed.

Lemma getInventory_missing db pid :
  inventories db !! pid = None ->
  getInventory pid db =
    (inl (NotFoundException "Inventory not found for this product"), db).
Proof. intros Hn. unfold_service. rewrite Hn. reflexivity. Qed.

Example widget_lookup : inventories widgetDb !! "p1" = Some widgetRow.
Proof. reflexivity. Qed.

End InventoryFacts.

(* ===================================================================== *)
(** * Reserve, release and deduct *)
(* ===================================================================== *)

Module ReserveReleaseDeduct.
Import Inventory Outcome Scenario InventoryFacts.

(** C2, at the input where the code departs from it: [reserveInventory]
    has no test on the sign of the quantity, and a reservation of -5 units
    of the widget is not rejected: it succeeds and stores [reserved = -5],
    [available = 105]. *)
Lemma reserve_accepts_nonpositive_quantity :
  ~ (resQuantity negativeReserve > 0) /\
  fst (reserveInventory negativeReserve widgetDb) =
    inr {| productId := "p1"; quantity := 100; reserved := -5; available := 105;
           lowStockThreshold := 10; isTracked := true; product := widget |} /\
  inventories (snd (reserveInventory negativeReserve widgetDb)) !! "p1" =
    Some {| productId := "p1"; quantity := 100; reserved := -5; available := 105;
            lowStockThreshold := 10; isTracked := true; product := widget |}.
Proof. split; [cbn; lia | split; reflexivity]. Qed.

(** The guard [reserveInventory] does have: it succeeds exactly when
    [available >= quantity], whatever the sign of [quantity].  When
    [available < quantity] it throws the bad-request exception whose message
    gives the available and the requested amounts, and the store is left as
    it was; otherwise it returns the row with [reserved] raised and
    [available] lowered by [quantity], and that row is the stored one. *)
Theorem reserveInventory_guard db dto r :
  inventories db !! resProductId dto = Some r ->
  (available r < resQuantity dto ->
   reserveInventory dto db =
     (inl (BadRequestException
             ("Insufficient inventory. Available: " +:+ show (available r)
              +:+ ", Requested: " +:+ show (resQuantity dto))), db))
  /\
  (resQuantity dto <= available r ->
   exists r' db',
     reserveInventory dto db = (inr r', db') /\
     quantity r' = quantity r /\
     reserved r' = reserved r + resQuantity dto /\
     available r' = available r - resQuantity dto /\
     inventories db' !! resProductId dto = Some r').
Proof.
  intros Hr. rewrite (reserveInventory_run _ _ _ Hr). split; intros Hq.
  - apply Z.ltb_lt in Hq. rewrite Hq. reflexivity.
  - apply Z.ltb_ge in Hq. rewrite Hq.
    eexists _, _. split; [reflexivity |].
    cbn [inventories]. rewrite lookup_insert_eq. repeat split; reflexivity.
Qed.

Lemma reserveInventory_guard_witness :
  inventories widgetDb !! "p1" = Some widgetRow /\
  reserveInventory
    {| resProductId := "p1"; resQuantity := 101; resReference := None |} widgetDb =
    (inl (BadRequestException "Insufficient inventory. Available: 100, Requested: 101"),
     widgetDb).
Proof.
  split; [reflexivity |].
  apply (reserveInventory_guard widgetDb
           {| resProductId := "p1"; resQuantity := 101; resReference := None |}
           widgetRow); [reflexivity | cbn; lia].
Defined.

(** C3: [deductInventory] splits the quantity [q] into
    [fromReserved = min(reserved, q)] and [fromAvailable = q - fromReserved];
    it throws "Insufficient inventory", leaving the store as it was, exactly
    when [fromAvailable > available]; otherwise it writes
    [quantity - q], [reserved - fromReserved], [available - fromAvailable].
    When [q <= reserved] the available amount is unchanged; when
    [q > reserved] the reserved amount becomes 0 and the available amount
    goes down by [q - reserved]. *)
Theorem deductInventory_split db pid q reference r :
  inventories db !! pid = Some r ->
  let fromReserved := Z.min (reserved r) q in
  let fromAvailable := q - fromReserved in
  (fromAvailable > available r ->
   deductInventory pid q reference db =
     (inl (BadRequestException "Insufficient inventory"), db))
  /\
  (fromAvailable <= available r ->
   exists r' db',
     deductInventory pid q reference db = (inr r', db') /\
     inventories db' !! pid = Some r' /\
     quantity r' = quantity r - q /\
     reserved r' = reserved r - fromReserved /\
     available r' = available r - fromAvailable /\
     (q <= reserved r -> available r' = available r) /\
     (q > reserved r ->
      reserved r' = 0 /\ available r' = available r - (q - reserved r))).
Proof.
  intros Hr fromReserved fromAvailable.
  rewrite (deductInventory_run _ _ _ _ _ Hr).
  fold fromReserved. fold fromAvailable. split; intros Hq.
  - apply Z.gt_lt, Z.gtb_lt in Hq. rewrite Hq. reflexivity.
  - destruct (fromAvailable >? available r) eqn:Hgt;
      [rewrite Z.gtb_ltb in Hgt; apply Z.ltb_lt in Hgt; lia |].
    eexists _, _. split; [reflexivity |].
    cbn [inventories]. rewrite lookup_insert_eq.
    unfold deductedRow. simpl_row.
    repeat split; try reflexivity; subst fromAvailable fromReserved; lia.
Qed.

Lemma deductInventory_split_witness :
  inventories widgetDb !! "p1" = Some widgetRow /\
  exists r' db',
    deductInventory "p1" 96 None widgetDb = (inr r', db') /\
    inventories db' !! "p1" = Some r' /\
    quantity r' = 4 /\ reserved r' = 0 /\ available r' = 4.
Proof.
  split; [reflexivity |].
  destruct (deductInventory_split widgetDb "p1" 96 None widgetRow eq_refl)
    as [_ Hok].
  destruct Hok as (r' & db' & Hrun & Hst & Hq & Hrs & Hav & _); [cbn; lia |].
  exists r', db'. repeat split; assumption.
Defined.

(** The scenario of the specification: reserving 95 of the widget leaves
    5 available and hands no event to the event service; deducting 96
    leaves 4 available, at or below the threshold 10, and hands over one
    low-stock alert. *)
Example reserve_95_no_event :
  fst (reserveInventory
         {| resProductId := "p1"; resQuantity := 95; resReference := None |}
         widgetDb) =
    inr {| productId := "p1"; quantity := 100; reserved := 95; available := 5;
           lowStockThreshold := 10; isTracked := true; product := widget |} /\
  eventCalls
    (snd (reserveInventory
            {| resProductId := "p1"; resQuantity := 95; resReference := None |}
            widgetDb)) = [].
Proof. split; reflexivity. Qed.

Example deduct_96_one_alert :
  eventCalls (snd (deductInventory "p1" 96 None widgetDb)) =
    [LowStockAlertEvent "p1" "W-1" "Widget" 4 10].
Proof. reflexivity. Qed.

(** C7, as stated, fails: on a row whose [reserved] is negative, the state
    a reservation of -5 units of the widget leaves, a reservation of three
    units ([3 <= available]) succeeds and the release of three units that
    follows it is refused, because the guard of [releaseInventory] compares
    the request with a [reserved] of -2; [reserved] and [available] stay
    where the reservation put them. *)
Lemma release_after_reserve_refused :
  snd (reserveInventory negativeReserve widgetDb) = overdrawnDb /\
  inventories overdrawnDb !! "p1" = Some overdrawnRow /\
  3 <= available overdrawnRow /\
  fst (reserveInventory
         {| resProductId := "p1"; resQuantity := 3; resReference := None |}
         overdrawnDb) =
    inr {| productId := "p1"; quantity := 100; reserved := -2; available := 102;
           lowStockThreshold := 10; isTracked := true; product := widget |} /\
  releaseInventory
    {| relProductId := "p1"; relQuantity := 3; relReference := None |}
    (snd (reserveInventory
            {| resProductId := "p1"; resQuantity := 3; resReference := None |}
            overdrawnDb)) =
    (inl (BadRequestException
            "Cannot release more than reserved. Reserved: -2, Requested: 3"),
     snd (reserveInventory
            {| resProductId := "p1"; resQuantity := 3; resReference := None |}
            overdrawnDb)) /\
  inventories
    (snd (reserveInventory
            {| resProductId := "p1"; resQuantity := 3; resReference := None |}
            overdrawnDb)) !! "p1" =
    Some {| productId := "p1"; quantity := 100; reserved := -2; available := 102;
            lowStockThreshold := 10; isTracked := true; product := widget |}.
Proof.
  split; [reflexivity |]. split; [reflexivity |]. split; [cbn; lia |].
  split; [reflexivity |]. split; reflexivity.
Qed.

(** C7, amended: on a row whose [reserved] is not negative, for every
    [q <= available] the call [reserveInventory(q)] succeeds, the
    [releaseInventory(q)] that follows it succeeds, the quantity on hand is
    the same after each of them, and after the second the row, hence its
    [reserved] and [available], is the one the pair started from. *)
Theorem reserve_then_release db pid q ref1 ref2 r :
  inventories db !! pid = Some r ->
  0 <= reserved r ->
  q <= available r ->
  exists r1 db1 r2 db2,
    reserveInventory
      {| resProductId := pid; resQuantity := q; resReference := ref1 |} db
      = (inr r1, db1) /\
    releaseInventory
      {| relProductId := pid; relQuantity := q; relReference := ref2 |} db1
      = (inr r2, db2) /\
    quantity r1 = quantity r /\
    quantity r2 = quantity r /\
    reserved r2 = reserved r /\
    available r2 = available r /\
    inventories db1 !! pid = Some r1 /\
    inventories db2 !! pid = Some r2.
Proof.
  intros Hr Hres Hq.
  set (rdto := {| resProductId := pid; resQuantity := q; resReference := ref1 |}).
  set (ldto := {| relProductId := pid; relQuantity := q; relReference := ref2 |}).
  rewrite (reserveInventory_run db rdto r Hr). cbn [resQuantity resProductId rdto].
  destruct (available r <? q) eqn:Hlt; [apply Z.ltb_lt in Hlt; lia |].
  eexists _, _, _, _. split; [reflexivity |].
  erewrite (releaseInventory_run _ ldto);
    [| cbn [inventories relProductId ldto]; apply lookup_insert_eq].
  cbn [relQuantity relProductId ldto]. unfold reservedRow at 1. simpl_row.
  destruct (reserved r + q <? q) eqn:Hlt2; [apply Z.ltb_lt in Hlt2; lia |].
  split; [reflexivity |].
  cbn [inventories]. rewrite !lookup_insert_eq.
  unfold releasedRow, reservedRow. simpl_row. repeat split; lia.
Qed.

Lemma reserve_then_release_witness :
  inventories widgetDb !! "p1" = Some widgetRow /\
  0 <= reserved widgetRow /\
  95 <= available widgetRow /\
  exists r1 db1 r2 db2,
    reserveInventory
      {| resProductId := "p1"; resQuantity := 95; resReference := None |} widgetDb
      = (inr r1, db1) /\
    releaseInventory
      {| relProductId := "p1"; relQuantity := 95; relReference := None |} db1
      = (inr r2, db2) /\
    quantity r1 = 100 /\ quantity r2 = 100 /\
    reserved r2 = 0 /\ available r2 = 100 /\
    inventories db1 !! "p1" = Some r1 /\
    inventories db2 !! "p1" = Some r2.
Proof.
  assert (H1 : 0 <= reserved widgetRow) by (cbn; lia).
  assert (H2 : 95 <= available widgetRow) by (cbn; lia).
  split; [reflexivity |]. split; [exact H1 |]. split; [exact H2 |].
  exact (reserve_then_release widgetDb "p1" 95 None None widgetRow eq_refl H1 H2).
Defined.

End ReserveReleaseDeduct.

(* ===================================================================== *)
(** * UpdateInventory *)
(* ===================================================================== *)

Module UpdateInventory.
Import Inventory Outcome Scenario InventoryFacts.

(** C6: [updateInventory] takes every field the request leaves unset from
    the stored row and computes [newAvailable = newQuantity - newReserved];
    when that is negative it throws "Available quantity cannot be negative"
    and the whole store (the row, the transaction log, the events) is the
    one it started from. *)
Theorem updateInventory_rejects_negative_available db pid dto r :
  inventories db !! pid = Some r ->
  default (quantity r) (nullish (updQuantity dto))
    - default (reserved r) (updReserved dto) < 0 ->
  updateInventory pid dto db =
    (inl (BadRequestException "Available quantity cannot be negative"), db).
Proof.
  intros Hr Hneg. rewrite (updateInventory_run _ _ _ _ Hr).
  unfold updatedRow. simpl_row.
  apply Z.ltb_lt in Hneg. rewrite Hneg. reflexivity.
Qed.

Lemma updateInventory_rejects_negative_available_witness :
  inventories widgetDb !! "p1" = Some widgetRow /\
  updateInventory "p1"
    {| updQuantity := Undefined; updReserved := Some 101;
       updLowStockThreshold := Some 3; updIsTracked := Some false |} widgetDb =
    (inl (BadRequestException "Available quantity cannot be negative"), widgetDb).
Proof.
  split; [reflexivity |].
  apply (updateInventory_rejects_negative_available widgetDb "p1"
           {| updQuantity := Undefined; updReserved := Some 101;
              updLowStockThreshold := Some 3; updIsTracked := Some false |}
           widgetRow); [reflexivity | cbn; lia].
Defined.

(** What a successful [updateInventory] leaves behind, field by field. *)
Lemma updateInventory_success db pid dto r r' db' :
  inventories db !! pid = Some r ->
  updateInventory pid dto db = (inr r', db') ->
  r' = updatedRow dto r /\
  inventories db' = <[pid := updatedRow dto r]> (inventories db) /\
  transactions db' = transactions db ++ updateTransactions pid dto r /\
  eventCalls db' = eventCalls db ++ updateEvents pid dto r.
Proof.
  intros Hr. rewrite (updateInventory_run _ _ _ _ Hr).
  destruct (_ <? 0); [discriminate |].
  intros [= <- <-]. repeat split; reflexivity.
Qed.

(** C8, at the input where the code departs from it: an update whose body
    carries [quantity: null] on the widget (100 on hand) succeeds and keeps
    the quantity at 100, the row being stored as it was, yet appends an
    ADJUSTMENT row of -100, because [null !== undefined] lets the request
    through the guard of the transaction. *)
Lemma null_quantity_logs_adjustment :
  fst (updateInventory "p1" nullQuantity widgetDb) = inr widgetRow /\
  inventories (snd (updateInventory "p1" nullQuantity widgetDb)) !! "p1"
    = Some widgetRow /\
  transactions (snd (updateInventory "p1" nullQuantity widgetDb)) =
    transactions widgetDb ++
    [ {| txProductId := "p1"; txType := ADJUSTMENT; txQuantity := -100;
         txReason := "Manual inventory update"; txReference := None |} ].
Proof. repeat split; reflexivity. Qed.

(** For a request whose quantity is not [null], a successful
    [updateInventory] appends a transaction exactly when the resolved
    quantity differs from the stored one.  The appended row is a RESTOCK
    when the quantity went up and an ADJUSTMENT when it went down, and its
    quantity is the new quantity minus the old one.  When the resolved
    quantity equals the stored one the log is unchanged. *)
Lemma updateInventory_transaction db pid dto r r' db' :
  inventories db !! pid = Some r ->
  updQuantity dto <> Null ->
  updateInventory pid dto db = (inr r', db') ->
  let newQuantity := default (quantity r) (nullish (updQuantity dto)) in
  quantity r' = newQuantity /\
  (newQuantity = quantity r -> transactions db' = transactions db) /\
  (newQuantity <> quantity r ->
   exists t,
     transactions db' = transactions db ++ [t] /\
     txProductId t = pid /\
     txQuantity t = newQuantity - quantity r /\
     (quantity r < newQuantity -> txType t = RESTOCK) /\
     (newQuantity < quantity r -> txType t = ADJUSTMENT)).
Proof.
  intros Hr Hnull Hrun newQuantity.
  destruct (updateInventory_success _ _ _ _ _ _ Hr Hrun) as (-> & _ & -> & _).
  subst newQuantity. unfold updateTransactions, updatedRow. simpl_row.
  split; [reflexivity |].
  destruct (updQuantity dto) as [| | q]; [| contradiction |];
    cbn [nullish]; simpl_row.
  - split; [intros _; apply app_nil_r | intros Hne; contradiction].
  - destruct (Z.eqb_spec q (quantity r)) as [-> | Hne]; cbn [negb].
    + split; [intros _; apply app_nil_r | intros Hne; contradiction].
    + split; [intros Heq; contradiction | intros _].
      eexists. split; [reflexivity |].
      cbn [txProductId txQuantity txType]. repeat split.
      * intros Hlt. apply Z.lt_gt, Z.gtb_gt in Hlt. rewrite Hlt. reflexivity.
      * intros Hlt. destruct (q >? quantity r) eqn:Hgt; [| reflexivity].
        apply Z.gtb_gt in Hgt. lia.
Qed.

Lemma updateInventory_transaction_witness :
  inventories widgetDb !! "p1" = Some widgetRow /\
  exists t,
    transactions
      (snd (updateInventory "p1"
              {| updQuantity := Value 120; updReserved := None;
                 updLowStockThreshold := None; updIsTracked := None |} widgetDb))
      = transactions widgetDb ++ [t] /\
    txQuantity t = 120 - 100 /\
    txType t = RESTOCK.
Proof.
  split; [reflexivity |].
  destruct (updateInventory_transaction widgetDb "p1"
              {| updQuantity := Value 120; updReserved := None;
                 updLowStockThreshold := None; updIsTracked := None |}
              widgetRow _ _ eq_refl ltac:(discriminate) eq_refl) as (_ & _ & Hchg).
  destruct Hchg as (t & Htx & _ & Hq & Hup & _); [cbn; lia |].
  exists t. split; [exact Htx |]. split; [exact Hq |].
  apply Hup. cbn. lia.
Defined.

(** The scenario of the specification: an update to the quantity the row
    already has appends no transaction. *)
Example update_same_quantity_no_transaction :
  transactions
    (snd (updateInventory "p1"
            {| updQuantity := Value 100; updReserved := None;
               updLowStockThreshold := None; updIsTracked := None |} widgetDb))
  = [].
Proof. reflexivity. Qed.

(** C10: on a successful [updateInventory] the low-stock alert is decided on
    the row as written.  The new available amount is compared with the
    threshold of the request when it has one, else with the stored one, and
    the alert needs the tracking flag of the request when it has one, else
    the stored one.  The events handed over are the inventory-updated event
    followed by the alert exactly when that test holds; the alert carries
    the new available amount and the threshold used. *)
Theorem updateInventory_low_stock_decision db pid dto r r' db' :
  inventories db !! pid = Some r ->
  updateInventory pid dto db = (inr r', db') ->
  let newAvailable :=
    default (quantity r) (nullish (updQuantity dto))
      - default (reserved r) (updReserved dto) in
  let threshold := default (lowStockThreshold r) (updLowStockThreshold dto) in
  let tracked := default (isTracked r) (updIsTracked dto) in
  eventCalls db' =
    eventCalls db ++
    InventoryUpdatedEvent pid (sku (product r)) (quantity r)
      (default (quantity r) (nullish (updQuantity dto))) newAvailable
    :: (if (newAvailable <=? threshold) && tracked
        then [LowStockAlertEvent pid (sku (product r)) (name (product r))
                newAvailable threshold]
        else []).
Proof.
  intros Hr Hrun newAvailable threshold tracked.
  destruct (updateInventory_success _ _ _ _ _ _ Hr Hrun) as (_ & _ & _ & ->).
  reflexivity.
Qed.

Lemma updateInventory_low_stock_decision_witness :
  inventories widgetDb !! "p1" = Some widgetRow /\
  eventCalls
    (snd (updateInventory "p1"
            {| updQuantity := Value 50; updReserved := None;
               updLowStockThreshold := Some 60; updIsTracked := None |} widgetDb))
  = [InventoryUpdatedEvent "p1" "W-1" 100 50 50;
     LowStockAlertEvent "p1" "W-1" "Widget" 50 60].
Proof.
  split; [reflexivity |].
  exact (updateInventory_low_stock_decision widgetDb "p1"
           {| updQuantity := Value 50; updReserved := None;
              updLowStockThreshold := Some 60; updIsTracked := None |}
           widgetRow _ _ eq_refl eq_refl).
Defined.

(** Switching tracking off in the same request silences the alert the
    stored flag would have allowed. *)
Example update_untracked_no_alert :
  eventCalls
    (snd (updateInventory "p1"
            {| updQuantity := Value 5; updReserved := None;
               updLowStockThreshold := None; updIsTracked := Some false |}
            widgetDb))
  = [InventoryUpdatedEvent "p1" "W-1" 100 5 5].
Proof. reflexivity. Qed.

End UpdateInventory.

(* ===================================================================== *)
(** * The ledger invariant and the transaction log *)
(* ===================================================================== *)

Module LedgerFacts.
Import Inventory Outcome Ledger InventoryFacts.

(** A call either fails and leaves the store alone, or succeeds, returns
    the row it wrote and stores it. *)
Lemma call_outcome db pid c r :
  inventories db !! pid = Some r ->
  (exists e, call pid c db = (inl e, db)) \/
  (exists db',
     call pid c db = (inr (writtenRow c r), db') /\
     inventories db' = <[pid := writtenRow c r]> (inventories db)).
Proof.
  intros Hr. destruct c as [dto | q ref | q ref | q ref]; cbn [call writtenRow].
  - rewrite (updateInventory_run _ _ _ _ Hr).
    destruct (_ <? 0); [left | right]; eexists; [| split]; reflexivity.
  - rewrite (reserveInventory_run db {| resProductId := pid |} r Hr).
    destruct (_ <? _); [left | right]; eexists; [| split]; reflexivity.
  - rewrite (releaseInventory_run db {| relProductId := pid |} r Hr).
    destruct (_ <? _); [left | right]; eexists; [| split]; reflexivity.
  - rewrite (deductInventory_run _ _ _ _ _ Hr).
    destruct (_ >? _); [left | right]; eexists; [| split]; reflexivity.
Qed.

(** The equation [available = quantity - reserved] survives every
    successful call, whatever the sign of its amounts. *)
Lemma call_keeps_equation db pid c r r' db' :
  inventories db !! pid = Some r ->
  available r = quantity r - reserved r ->
  call pid c db = (inr r', db') ->
  available r' = quantity r' - reserved r'.
Proof.
  intros Hr Heq Hrun.
  destruct (call_outcome db pid c r Hr) as [[e He] | (db1 & H1 & _)];
    [congruence |].
  rewrite H1 in Hrun. injection Hrun as <- <-.
  destruct c; cbn [writtenRow];
    unfold updatedRow, reservedRow, releasedRow, deductedRow; simpl_row; lia.
Qed.

(** A successful call keeps the whole invariant when the amount of a
    reserve or release and the reserved amount an update supplies are not
    negative.  The quantity of an update and the amount of a deduct need no
    condition: the guards of the two methods cover them. *)
Lemma call_keeps_invariant db pid c r r' db' :
  inventories db !! pid = Some r ->
  ledgerInvariant r ->
  nonnegCall c ->
  call pid c db = (inr r', db') ->
  ledgerInvariant r'.
Proof.
  intros Hr (Heq & Hq & Hrs & Hav) Hc Hrun. unfold ledgerInvariant.
  destruct c as [dto | q ref | q ref | q ref]; cbn [call nonnegCall] in *.
  - rewrite (updateInventory_run _ _ _ _ Hr) in Hrun.
    destruct (_ <? 0) eqn:Hneg; [discriminate |]. injection Hrun as <- <-.
    apply Z.ltb_ge in Hneg. revert Hneg. unfold updatedRow. simpl_row.
    destruct (updQuantity dto), (updReserved dto);
      cbn [nonnegOpt nullish] in *; simpl_row; lia.
  - rewrite (reserveInventory_run db {| resProductId := pid |} r Hr) in Hrun.
    cbn [resQuantity] in Hrun.
    destruct (_ <? _) eqn:Hlt; [discriminate |]. injection Hrun as <- <-.
    apply Z.ltb_ge in Hlt. unfold reservedRow. simpl_row. lia.
  - rewrite (releaseInventory_run db {| relProductId := pid |} r Hr) in Hrun.
    cbn [relQuantity] in Hrun.
    destruct (_ <? _) eqn:Hlt; [discriminate |]. injection Hrun as <- <-.
    apply Z.ltb_ge in Hlt. unfold releasedRow. simpl_row. lia.
  - rewrite (deductInventory_run _ _ _ _ _ Hr) in Hrun.
    destruct (_ >? _) eqn:Hgt; [discriminate |]. injection Hrun as <- <-.
    rewrite Z.gtb_ltb in Hgt. apply Z.ltb_ge in Hgt.
    unfold deductedRow. simpl_row. lia.
Qed.

(** A property of rows that every admissible call keeps is kept by every
    sequence of admissible calls. *)
Section Preservation.
Variable P : ProductInventory -> Prop.
Variable admissible : LedgerCall -> Prop.
Hypothesis step : forall db pid c r r' db',
  inventories db !! pid = Some r -> P r -> admissible c ->
  call pid c db = (inr r', db') -> P r'.

Lemma runCalls_preserves pid cs : forall db r,
  inventories db !! pid = Some r ->
  P r ->
  Forall admissible cs ->
  exists r1, inventories (runCalls pid cs db) !! pid = Some r1 /\ P r1.
Proof.
  induction cs as [| c cs IH]; intros db r Hr HP Hcs.
  - exists r. split; assumption.
  - apply Forall_cons in Hcs as [Hc Hcs]. cbn [runCalls foldl].
    destruct (call_outcome db pid c r Hr) as [[e He] | (db1 & H1 & Hst)].
    + rewrite He. cbn [snd]. exact (IH db r Hr HP Hcs).
    + rewrite H1. cbn [snd].
      apply (IH db1 (writtenRow c r)); [| | exact Hcs].
      * rewrite Hst. apply lookup_insert_eq.
      * exact (step db pid c r _ _ Hr HP Hc H1).
Qed.
End Preservation.

End LedgerFacts.

Module LedgerProperties.
Import Inventory Outcome Ledger Scenario InventoryFacts LedgerFacts.

(** C1, at the input where the code departs from it: no method checks the
    sign of the amount it is given, and a release of -5 units on the fully
    reserved widget, whose row satisfies the invariant, succeeds, stores
    [reserved = 105] and [available = -5], and so leaves a row that breaks
    the invariant. *)
Lemma negative_release_breaks_invariant :
  ledgerInvariant widgetRow /\
  fst (call "p1" (Release (-5) None) (runCalls "p1" fullyReserved widgetDb)) =
    inr {| productId := "p1"; quantity := 100; reserved := 105; available := -5;
           lowStockThreshold := 10; isTracked := true; product := widget |} /\
  inventories
    (snd (call "p1" (Release (-5) None) (runCalls "p1" fullyReserved widgetDb)))
    !! "p1" =
    Some {| productId := "p1"; quantity := 100; reserved := 105; available := -5;
            lowStockThreshold := 10; isTracked := true; product := widget |} /\
  ~ ledgerInvariant
      {| productId := "p1"; quantity := 100; reserved := 105; available := -5;
         lowStockThreshold := 10; isTracked := true; product := widget |}.
Proof.
  split; [unfold ledgerInvariant; cbn; lia |].
  split; [reflexivity |]. split; [reflexivity |].
  unfold ledgerInvariant. cbn. lia.
Qed.

(** What the methods do keep: start from a row that satisfies the invariant
    and serve any sequence of update, reserve, release and deduct calls on
    its product.  After each call that succeeds the returned row is the
    stored one and [available = quantity - reserved] holds; when moreover the
    amount of no reserve or release so far, and no reserved amount supplied
    by an update, was negative, [quantity], [reserved] and [available] are
    all at least 0. *)
Theorem ledger_invariant_preserved db pid r cs c r' db' :
  inventories db !! pid = Some r ->
  ledgerInvariant r ->
  call pid c (runCalls pid cs db) = (inr r', db') ->
  inventories db' !! pid = Some r' /\
  available r' = quantity r' - reserved r' /\
  (Forall nonnegCall (cs ++ [c]) ->
   0 <= quantity r' /\ 0 <= reserved r' /\ 0 <= available r').
Proof.
  intros Hr Hinv Hrun.
  assert (Hst : inventories db' !! pid = Some r').
  { destruct (runCalls_preserves (fun _ => True) (fun _ => True)
                (fun _ _ _ _ _ _ _ _ _ _ => I) pid cs db r Hr I)
      as (r1 & Hr1 & _); [apply Forall_true; trivial |].
    destruct (call_outcome _ pid c r1 Hr1) as [[e He] | (db1 & H1 & Hins)];
      [congruence |].
    rewrite H1 in Hrun. injection Hrun as <- <-.
    rewrite Hins. apply lookup_insert_eq. }
  split; [exact Hst |]. split.
  - destruct (runCalls_preserves
                (fun x => available x = quantity x - reserved x)
                (fun _ => True)
                (fun d p c0 x x' d' Hx HP _ Hc => call_keeps_equation d p c0 x x' d' Hx HP Hc)
                pid cs db r Hr (proj1 Hinv))
      as (r1 & Hr1 & Heq1); [apply Forall_true; trivial |].
    exact (call_keeps_equation _ pid c r1 r' db' Hr1 Heq1 Hrun).
  - intros Hall. apply Forall_app in Hall as [Hcs Hc].
    apply Forall_inv in Hc.
    destruct (runCalls_preserves ledgerInvariant nonnegCall
                call_keeps_invariant pid cs db r Hr Hinv Hcs)
      as (r1 & Hr1 & Hinv1).
    destruct (call_keeps_invariant _ pid c r1 r' db' Hr1 Hinv1 Hc Hrun)
      as (_ & Hq & Hrs & Hav).
    repeat split; assumption.
Qed.

Lemma ledger_invariant_preserved_witness :
  inventories widgetDb !! "p1" = Some widgetRow /\
  ledgerInvariant widgetRow /\
  exists r' db',
    call "p1" (Deduct 96 None)
      (runCalls "p1" [Reserve 95 None; Release 95 None] widgetDb) = (inr r', db') /\
    inventories db' !! "p1" = Some r' /\
    available r' = quantity r' - reserved r' /\
    0 <= quantity r' /\ 0 <= reserved r' /\ 0 <= available r'.
Proof.
  assert (Hinv : ledgerInvariant widgetRow) by (unfold ledgerInvariant; cbn; lia).
  split; [reflexivity |]. split; [exact Hinv |].
  exists (deductedRow 96 widgetRow),
    (snd (call "p1" (Deduct 96 None)
            (runCalls "p1" [Reserve 95 None; Release 95 None] widgetDb))).
  assert (Hrun :
    call "p1" (Deduct 96 None)
      (runCalls "p1" [Reserve 95 None; Release 95 None] widgetDb) =
    (inr (deductedRow 96 widgetRow),
     snd (call "p1" (Deduct 96 None)
            (runCalls "p1" [Reserve 95 None; Release 95 None] widgetDb))))
    by reflexivity.
  split; [exact Hrun |].
  destruct (ledger_invariant_preserved widgetDb "p1" widgetRow
              [Reserve 95 None; Release 95 None] (Deduct 96 None) _ _
              eq_refl Hinv Hrun) as (Hst & Heq & Hnonneg).
  split; [exact Hst |]. split; [exact Heq |].
  apply Hnonneg. repeat constructor; cbn; lia.
Defined.

(** C9, as stated, fails: an update that changes the stored row without
    changing its quantity succeeds and appends no transaction. *)
Lemma update_without_quantity_change_appends_nothing :
  fst (call "p1" (Update reserveFive) widgetDb) =
    inr {| productId := "p1"; quantity := 100; reserved := 5; available := 95;
           lowStockThreshold := 10; isTracked := true; product := widget |} /\
  inventories (snd (call "p1" (Update reserveFive) widgetDb)) !! "p1" =
    Some {| productId := "p1"; quantity := 100; reserved := 5; available := 95;
            lowStockThreshold := 10; isTracked := true; product := widget |} /\
  inventories (snd (call "p1" (Update reserveFive) widgetDb)) !! "p1"
    <> inventories widgetDb !! "p1" /\
  transactions (snd (call "p1" (Update reserveFive) widgetDb)) =
    transactions widgetDb.
Proof.
  split; [reflexivity |]. split; [reflexivity |]. split; [| reflexivity].
  intros Heq. vm_compute in Heq. discriminate Heq.
Qed.

(** C9, amended: a successful call keeps the rows already in the log, in
    order, and appends at most one row, for the product of the call.  A
    successful reserve, release or deduct appends exactly one row; a
    successful update whose quantity is not [null] appends exactly one row
    when the resolved quantity differs from the stored one and none
    otherwise, also when it changes [reserved], [lowStockThreshold] or
    [isTracked]. *)
Theorem successful_call_appends db pid c r r' db' :
  inventories db !! pid = Some r ->
  call pid c db = (inr r', db') ->
  exists added,
    transactions db' = transactions db ++ added /\
    (length added <= 1)%nat /\
    Forall (fun t => txProductId t = pid) added /\
    (nullFree c -> length added = appendedRows c r).
Proof.
  intros Hr Hrun.
  destruct c as [dto | q ref | q ref | q ref];
    cbn [call appendedRows nullFree] in *.
  - rewrite (updateInventory_run _ _ _ _ Hr) in Hrun.
    destruct (_ <? 0); [discriminate |]. injection Hrun as <- <-.
    exists (updateTransactions pid dto r). split; [reflexivity |].
    unfold updateTransactions.
    destruct (updQuantity dto) as [| | q]; cbn [nullish]; simpl_row.
    + rewrite decide_True by reflexivity.
      split; [cbn; lia |]. split; [constructor | reflexivity].
    + split; [cbn; lia |]. split; [repeat constructor |].
      intros Hnull. contradiction.
    + destruct (Z.eqb_spec q (quantity r)) as [-> | Hne]; cbn [negb].
      * rewrite decide_True by reflexivity.
        split; [cbn; lia |]. split; [constructor | reflexivity].
      * rewrite decide_False by exact Hne.
        split; [cbn; lia |]. split; [repeat constructor | reflexivity].
  - rewrite (reserveInventory_run db {| resProductId := pid |} r Hr) in Hrun.
    destruct (_ <? _); [discriminate |]. injection Hrun as <- <-.
    eexists. split; [reflexivity |]. split; [cbn; lia |].
    split; [repeat constructor | reflexivity].
  - rewrite (releaseInventory_run db {| relProductId := pid |} r Hr) in Hrun.
    destruct (_ <? _); [discriminate |]. injection Hrun as <- <-.
    eexists. split; [reflexivity |]. split; [cbn; lia |].
    split; [repeat constructor | reflexivity].
  - rewrite (deductInventory_run _ _ _ _ _ Hr) in Hrun.
    destruct (_ >? _); [discriminate |]. injection Hrun as <- <-.
    eexists. split; [reflexivity |]. split; [cbn; lia |].
    split; [repeat constructor | reflexivity].
Qed.

Lemma successful_call_appends_witness :
  inventories widgetDb !! "p1" = Some widgetRow /\
  exists added,
    transactions (snd (call "p1" (Reserve 95 (Some "order-1")) widgetDb)) =
      transactions widgetDb ++ added /\
    length added = 1%nat.
Proof.
  split; [reflexivity |].
  destruct (successful_call_appends widgetDb "p1" (Reserve 95 (Some "order-1"))
              widgetRow _ _ eq_refl eq_refl) as (added & Htx & _ & _ & Hlen).
  exists added. split; [exact Htx | exact (Hlen I)].
Defined.

End LedgerProperties.

(* ===================================================================== *)
(** * GetLowStockProducts *)
(* ===================================================================== *)

Module LowStock.
Import Inventory Outcome Scenario InventoryFacts.

Lemma insertByAvailable_Permutation r l :
  Permutation (insertByAvailable r l) (r :: l).
Proof.
  induction l as [| x l IH]; cbn [insertByAvailable]; [reflexivity |].
  destruct (available r <? available x); [reflexivity |].
  rewrite IH. apply perm_swap.
Qed.

Lemma orderByAvailable_Permutation l : Permutation (orderByAvailable l) l.
Proof.
  unfold orderByAvailable. transitivity (rev l); [| symmetry; apply Permutation_rev].
  induction (rev l) as [| x l' IH]; cbn [foldr]; [reflexivity |].
  rewrite insertByAvailable_Permutation, IH. reflexivity.
Qed.

Lemma List_filter_Permutation {A} (f : A -> bool) (l l' : list A) :
  Permutation l l' -> Permutation (List.filter f l) (List.filter f l').
Proof.
  induction 1 as [| x l l' _ IH | x y l | l l' l'' _ IH1 _ IH2];
    cbn [List.filter].
  - reflexivity.
  - destruct (f x); [constructor |]; exact IH.
  - destruct (f x), (f y); try reflexivity. apply perm_swap.
  - etransitivity; eassumption.
Qed.

Lemma List_filter_filter {A} (f g : A -> bool) (l : list A) :
  List.filter f (List.filter g l) = List.filter (fun x => g x && f x) l.
Proof.
  induction l as [| x l IH]; cbn [List.filter]; [reflexivity |].
  destruct (g x); cbn [List.filter andb]; [destruct (f x) |]; congruence.
Qed.

(** The rows come back in ascending order of [available]. *)
Lemma insertByAvailable_sorted r l :
  Sorted (fun a b => available a <= available b) l ->
  Sorted (fun a b => available a <= available b) (insertByAvailable r l).
Proof.
  induction 1 as [| x l Hs IH Hhd]; cbn [insertByAvailable].
  - repeat constructor.
  - destruct (Z.ltb_spec (available r) (available x)) as [Hlt | Hge].
    + constructor; [constructor; assumption | constructor; lia].
    + constructor; [exact IH |].
      destruct Hhd as [| y l' Hxy]; cbn [insertByAvailable];
        [constructor; exact Hge |].
      destruct (available r <? available y); constructor; assumption.
Qed.

Lemma orderByAvailable_sorted l :
  Sorted (fun a b => available a <= available b) (orderByAvailable l).
Proof.
  unfold orderByAvailable.
  induction (rev l) as [| x l' IH]; cbn [foldr]; [constructor |].
  apply insertByAvailable_sorted, IH.
Qed.

Lemma getLowStockProducts_run threshold db :
  getLowStockProducts threshold db =
    (inr (List.filter (fun inv => available inv <=? lowStockThreshold inv)
            (orderByAvailable
               (List.filter
                  (fun inv =>
                     isTracked inv
                     && (available inv <=?
                           default (lowStockThreshold inv) threshold))
                  (rows db)))),
     db).
Proof. reflexivity. Qed.

(** C5: [getLowStockProducts] never fails and does not touch the store.
    With an override it returns exactly the tracked rows whose [available]
    is at most [min(override, lowStockThreshold)]; without one, exactly the
    tracked rows whose [available] is at most their own threshold.  Each row
    of the table that passes is returned as often as it is stored, and no
    returned row has [available] above its own threshold. *)
Theorem getLowStockProducts_rows db threshold :
  exists result,
    getLowStockProducts threshold db = (inr result, db) /\
    Permutation result (List.filter (listed threshold) (rows db)) /\
    Forall (fun inv =>
              isTracked inv = true /\
              available inv <= lowStockThreshold inv /\
              match threshold with
              | Some t => available inv <= t
              | None => True
              end) result.
Proof.
  eexists. split; [apply getLowStockProducts_run |].
  assert (Hperm :
    Permutation
      (List.filter (fun inv => available inv <=? lowStockThreshold inv)
         (orderByAvailable
            (List.filter
               (fun inv =>
                  isTracked inv
                  && (available inv <=?
                        default (lowStockThreshold inv) threshold))
               (rows db))))
      (List.filter (listed threshold) (rows db))).
  { rewrite (List_filter_Permutation _ _ _ (orderByAvailable_Permutation _)).
    rewrite List_filter_filter.
    erewrite filter_ext; [reflexivity |].
    intros inv. unfold listed.
    destruct threshold as [t |]; cbn [default from_option Datatypes.id];
      destruct (isTracked inv); cbn [andb]; try reflexivity.
    - destruct (Z.leb_spec (available inv) t),
        (Z.leb_spec (available inv) (lowStockThreshold inv)),
        (Z.leb_spec (available inv) (Z.min t (lowStockThreshold inv)));
        cbn [andb]; try reflexivity; lia.
    - destruct (available inv <=? lowStockThreshold inv); reflexivity. }
  split; [exact Hperm |].
  apply Forall_forall. intros inv Hin.
  apply list_elem_of_In in Hin.
  apply (Permutation_in _ Hperm), filter_In in Hin as [_ Hl].
  unfold listed in Hl. apply andb_true_iff in Hl as [Htr Hle].
  apply Z.leb_le in Hle.
  destruct threshold; repeat split; try assumption; lia.
Qed.

(** The example of the specification: override 5 on [twoRows] lists
    nothing, while without the override the first row is listed. *)
Example low_stock_override_is_a_ceiling :
  fst (getLowStockProducts (Some 5) twoRows) = inr [].
Proof. vm_compute. reflexivity. Qed.

Example low_stock_without_override :
  (fun r => match r with inr l => Some (productId <$> l) | inl _ => None end)
    (fst (getLowStockProducts None twoRows)) = Some ["a"].
Proof. vm_compute. reflexivity. Qed.

End LowStock.

(* ===================================================================== *)
(** * Bounded retry of the publishers *)
(* ===================================================================== *)

Module PublisherFacts.
Import UserEventService.

(** The [try] block returns only [true]. *)
Lemma tryBlock_returns_true o published :
  tryBlock o = inr published -> published = true.
Proof. destruct o as [| [|] |]; cbn; congruence. Qed.

Lemma attempts_schedule eventType start more :
  attempts (schedule eventType start more) = S more.
Proof.
  revert start. induction more as [| k IH]; intros start; [reflexivity |].
  cbn [schedule]. unfold attempts in *. cbn [List.filter isAttempt length].
  rewrite IH. reflexivity.
Qed.

Section PublishEvent.
Context {Data : Type}.
Variable broker : string -> Data -> nat -> AttemptOutcome.

(** The body of [publishEvent], as written. *)
Lemma publishEvent_body eventType data retries :
  publishEvent broker eventType data retries =
    match tryBlock (broker eventType data retries) with
    | inr published => (inr published, [Attempt eventType retries])
    | inl _ =>
        if lt_dec retries maxRetries then
          let '(result, effects) := publishEvent broker eventType data (S retries) in
          (result, Attempt eventType retries :: Sleep retryDelay :: effects)
        else (inr false, [Attempt eventType retries])
    end.
Proof.
  rewrite publishEvent_equation_1.
  destruct (tryBlock (broker eventType data retries)); [| reflexivity].
  cbn -[publishEvent lt_dec maxRetries].
  destruct (lt_dec retries maxRetries); reflexivity.
Qed.

Local Ltac last_pass :=
  split; [lia |]; split; [reflexivity |]; split; [constructor |];
  split; [reflexivity |].

(** From any value of [retries] up to [maxRetries]: the promise resolves,
    the passes are consecutive with a wait of [retryDelay] before each
    retry, all passes but the last failed, the result tells whether the
    last one went through, and a [false] comes only after the pass numbered
    [maxRetries]. *)
Lemma publishEvent_from eventType data retries :
  (retries <= maxRetries)%nat ->
  exists b more,
    (retries + more <= maxRetries)%nat /\
    publishEvent broker eventType data retries = (inr b, schedule eventType retries more) /\
    Forall (fun n => fails (broker eventType data n) = true) (seq retries more) /\
    b = negb (fails (broker eventType data (retries + more)%nat)) /\
    (b = true \/ (retries + more)%nat = maxRetries).
Proof.
  remember (maxRetries - retries)%nat as budget eqn:Hb.
  revert retries Hb.
  induction budget as [| budget IH]; intros retries Hb Hle;
    rewrite publishEvent_body;
    destruct (tryBlock (broker eventType data retries))
      as [error | published] eqn:Htry.
  - destruct (lt_dec retries maxRetries) as [Hlt | Hge]; [lia |].
    exists false, 0%nat. rewrite Nat.add_0_r. unfold fails. rewrite Htry.
    last_pass. right. lia.
  - rewrite (tryBlock_returns_true _ _ Htry).
    exists true, 0%nat. rewrite Nat.add_0_r. unfold fails. rewrite Htry.
    last_pass. left. reflexivity.
  - destruct (lt_dec retries maxRetries) as [Hlt | Hge]; [| lia].
    destruct (IH (S retries)) as (b & more & Hsum & Hrun & Hall & Hb' & Hlast);
      [lia | lia |].
    rewrite Hrun. exists b, (S more).
    replace (retries + S more)%nat with (S retries + more)%nat by lia.
    split; [lia |]. split; [reflexivity |]. split; [| split; assumption].
    cbn [seq]. constructor; [| exact Hall].
    unfold fails. rewrite Htry. reflexivity.
  - rewrite (tryBlock_returns_true _ _ Htry).
    exists true, 0%nat. rewrite Nat.add_0_r. unfold fails. rewrite Htry.
    last_pass. left. reflexivity.
Qed.

End PublishEvent.

Section Publish.
Import ProductEventService.
Context {Data : Type}.
Variable channelPublish : string -> Data -> ChannelPublish.

(** [publish] makes at most one pass, never waits, and resolves to a
    boolean: [true] exactly when it was connected and the channel call
    returned. *)
Lemma publish_single_attempt svc routingKey data :
  exists b,
    publish channelPublish svc routingKey data =
      (inr b,
       if isConnected svc && channel svc then [Attempt routingKey 0] else []) /\
    b = isConnected svc && channel svc
        && match channelPublish routingKey data with
           | Returned _ => true
           | Threw _ => false
           end.
Proof.
  unfold publish. destruct (isConnected svc), (channel svc); cbn;
    [destruct (channelPublish routingKey data) |..];
    eexists; split; reflexivity.
Qed.

End Publish.

End PublisherFacts.

Module Publish.
Import UserEventService Scenario PublisherFacts.

(** C4, as stated, fails: after the third failure in a row [publishEvent]
    does try again.  With a broker that refuses three passes and takes the
    fourth, the call makes four passes and resolves to [true]. *)
Lemma fourth_attempt_after_three_failures :
  fails (thirdTimeUnlucky "user.profile.updated" "u-1" 0) = true /\
  fails (thirdTimeUnlucky "user.profile.updated" "u-1" 1) = true /\
  fails (thirdTimeUnlucky "user.profile.updated" "u-1" 2) = true /\
  publishEvent thirdTimeUnlucky "user.profile.updated" "u-1" 0 =
    (inr true,
     [Attempt "user.profile.updated" 0; Sleep 5000;
      Attempt "user.profile.updated" 1; Sleep 5000;
      Attempt "user.profile.updated" 2; Sleep 5000;
      Attempt "user.profile.updated" 3]) /\
  attempts (snd (publishEvent thirdTimeUnlucky "user.profile.updated" "u-1" 0))
    = 4%nat.
Proof. repeat split; reflexivity. Qed.

(** C4, amended: for every routing key, payload and behaviour of the
    broker, a call of [publishEvent] resolves to a boolean and never
    rejects.  It makes the first pass and at most [maxRetries = 3] retries,
    four passes at most, with a wait of 5000 ms before each retry; every
    pass before the last one failed; it resolves to [true] exactly when the
    last pass went through, and to [false] only after the pass numbered 3,
    the fourth, has failed. *)
Theorem publishEvent_bounded_retry
    {Data : Type} (broker : string -> Data -> nat -> AttemptOutcome)
    (eventType : string) (data : Data) :
  exists b retried,
    (retried <= maxRetries)%nat /\
    maxRetries = 3%nat /\ retryDelay = 5000 /\
    publishEvent broker eventType data 0 = (inr b, schedule eventType 0 retried) /\
    attempts (schedule eventType 0 retried) = S retried /\
    Forall (fun n => fails (broker eventType data n) = true) (seq 0 retried) /\
    b = negb (fails (broker eventType data retried)) /\
    (b = true \/ retried = maxRetries).
Proof.
  destruct (publishEvent_from broker eventType data 0)
    as (b & more & Hsum & Hrun & Hall & Hb & Hl);
    [unfold maxRetries; lia |].
  exists b, more. cbn [Nat.add] in *.
  split; [exact Hsum |]. split; [reflexivity |]. split; [reflexivity |].
  split; [exact Hrun |]. split; [apply attempts_schedule |].
  split; [exact Hall |]. split; assumption.
Qed.

(** When all four passes fail the call resolves to [false] after exactly
    four passes and three waits. *)
Lemma publishEvent_gives_up
    {Data : Type} (broker : string -> Data -> nat -> AttemptOutcome)
    (eventType : string) (data : Data) :
  Forall (fun n => fails (broker eventType data n) = true) (seq 0 4) ->
  publishEvent broker eventType data 0 =
    (inr false,
     [Attempt eventType 0; Sleep 5000; Attempt eventType 1; Sleep 5000;
      Attempt eventType 2; Sleep 5000; Attempt eventType 3]).
Proof.
  intros Hall.
  destruct (publishEvent_from broker eventType data 0)
    as (b & more & Hsum & Hrun & _ & Hb & Hl);
    [unfold maxRetries; lia |].
  cbn [Nat.add] in *. unfold maxRetries in *.
  assert (Hfail : fails (broker eventType data more) = true).
  { rewrite Forall_forall in Hall. apply Hall, elem_of_seq. lia. }
  rewrite Hfail in Hb. cbn in Hb. subst b.
  destruct Hl as [? | ->]; [discriminate |]. exact Hrun.
Qed.

End Publish.

(* ===================================================================== *)
(** * Failures, missing products and the effect of a call *)
(* ===================================================================== *)

Module CallFacts.
Import Inventory Outcome Ledger CallEffects Scenario InventoryFacts LedgerFacts.

Lemma call_missing db pid c :
  inventories db !! pid = None ->
  call pid c db =
    (inl (NotFoundException "Inventory not found for this product"), db).
Proof.
  intros Hn. destruct c; cbn [call]; unfold_service;
    cbn [resProductId relProductId]; rewrite Hn; reflexivity.
Qed.

(** The store a successful call leaves. *)
Lemma call_success db pid c r r' db' :
  inventories db !! pid = Some r ->
  call pid c db = (inr r', db') ->
  r' = writtenRow c r /\
  db' = {| inventories := <[pid := writtenRow c r]> (inventories db);
           transactions := transactions db ++ callTransactions pid c r;
           eventCalls := eventCalls db ++ callEvents pid c r |}.
Proof.
  intros Hr. destruct c as [dto | q ref | q ref | q ref];
    cbn [call writtenRow callTransactions callEvents].
  - rewrite (updateInventory_run _ _ _ _ Hr).
    destruct (_ <? 0); [discriminate |]. intros [= <- <-]. split; reflexivity.
  - rewrite (reserveInventory_run db {| resProductId := pid |} r Hr).
    destruct (_ <? _); [discriminate |]. intros [= <- <-].
    rewrite app_nil_r. split; reflexivity.
  - rewrite (releaseInventory_run db {| relProductId := pid |} r Hr).
    destruct (_ <? _); [discriminate |]. intros [= <- <-].
    rewrite app_nil_r. split; reflexivity.
  - rewrite (deductInventory_run _ _ _ _ _ Hr).
    destruct (_ >? _); [discriminate |]. intros [= <- <-]. split; reflexivity.
Qed.

(** A call either throws and leaves the store alone, or succeeds on the
    stored row. *)
Lemma call_cases db pid c :
  (exists e, call pid c db = (inl e, db)) \/
  (exists r,
     inventories db !! pid = Some r /\
     call pid c db =
       (inr (writtenRow c r),
        {| inventories := <[pid := writtenRow c r]> (inventories db);
           transactions := transactions db ++ callTransactions pid c r;
           eventCalls := eventCalls db ++ callEvents pid c r |})).
Proof.
  destruct (inventories db !! pid) as [r |] eqn:Hr.
  - destruct (call_outcome db pid c r Hr) as [[e He] | (db1 & H1 & _)];
      [left; exists e; exact He |].
    right. exists r. split; [reflexivity |].
    destruct (call_success _ _ _ _ _ _ Hr H1) as [_ <-]. exact H1.
  - left. eexists. exact (call_missing _ _ c Hr).
Qed.

(** X1: a call for a product that has no inventory row -- a read with
    [getInventory] or any of update, reserve, release and deduct -- throws
    the not-found exception "Inventory not found for this product" and
    leaves the store as it was. *)
Theorem missing_product_not_found db pid c :
  inventories db !! pid = None ->
  getInventory pid db =
    (inl (NotFoundException "Inventory not found for this product"), db) /\
  call pid c db =
    (inl (NotFoundException "Inventory not found for this product"), db).
Proof.
  intros Hn. split; [exact (getInventory_missing _ _ Hn) | exact (call_missing _ _ c Hn)].
Qed.

Lemma missing_product_not_found_witness :
  inventories widgetDb !! "p2" = None /\
  call "p2" (Deduct 1 None) widgetDb =
    (inl (NotFoundException "Inventory not found for this product"), widgetDb).
Proof.
  split; [reflexivity |].
  exact (proj2 (missing_product_not_found widgetDb "p2" (Deduct 1 None) eq_refl)).
Defined.

(** X2: a ledger call that throws, against any database, has appended
    nothing to the transaction log and handed nothing to the event service.
    It leaves the store as it was, with one exception: when the database
    takes the update of the row and then rejects the create of the
    transaction row, the call throws what the database threw and the row
    stays as the update wrote it, with no transaction for the change.  The
    two writes are separate awaited calls, not one database transaction. *)
Theorem failed_call_changes_nothing prisma db pid c e db' :
  callOn prisma pid c db = (inl e, db') ->
  transactions db' = transactions db /\
  eventCalls db' = eventCalls db /\
  (db' = db \/
   exists r t,
     inventories db !! pid = Some r /\
     callTransactions pid c r = [t] /\
     rejectsCreate prisma t = true /\
     e = PrismaRejected /\
     inventories db' = <[pid := writtenRow c r]> (inventories db)).
Proof.
  destruct (inventories db !! pid) as [r |] eqn:Hr;
    destruct c as [dto | q ref | q ref | q ref];
    cbn [callOn writtenRow callTransactions];
    unfold Service.updateInventory, Service.reserveInventory,
      Service.releaseInventory, Service.deductInventory, Service.getInventory,
      Service.findUnique, Service.update, Service.createTransaction,
      Service.publishToEventService, bind, ret, throw;
    cbn [resProductId resQuantity resReference
         relProductId relQuantity relReference];
    rewrite Hr; cbn zeta;
    try (intros [= <- <-]; split; [| split; [| left]]; reflexivity).
  - destruct (_ <? 0); [intros [= <- <-]; auto |]. rewrite Hr.
    destruct (rejectsUpdate prisma _ _); [intros [= <- <-]; auto |].
    unfold updateTransactions, updatedRow.
    destruct (updQuantity dto) as [| | q0]; cbn [nullish default];
      [| | destruct (negb (q0 =? quantity r)) eqn:Hq];
      cbn [transactions eventCalls inventories];
      try (destruct (_ && _); discriminate).
    + destruct (rejectsCreate prisma _) eqn:Hc;
        [| destruct (_ && _); discriminate].
      intros [= <- <-]. cbn [transactions eventCalls inventories].
      split; [reflexivity |]. split; [reflexivity |]. right.
      eexists r, _. split; [reflexivity |]. split; [reflexivity |].
      split; [exact Hc |]. split; reflexivity.
    + destruct (rejectsCreate prisma _) eqn:Hc;
        [| destruct (_ && _); discriminate].
      intros [= <- <-]. cbn [transactions eventCalls inventories].
      split; [reflexivity |]. split; [reflexivity |]. right.
      eexists r, _. split; [reflexivity |].
      split; [rewrite Hq; reflexivity |].
      split; [exact Hc |]. split; reflexivity.
  - destruct (_ <? _); [intros [= <- <-]; auto |]. rewrite Hr.
    destruct (rejectsUpdate prisma _ _); [intros [= <- <-]; auto |].
    destruct (rejectsCreate prisma _) eqn:Hc; [| discriminate].
    intros [= <- <-]. cbn [transactions eventCalls inventories].
    split; [reflexivity |]. split; [reflexivity |]. right.
    eexists r, _. split; [reflexivity |]. split; [reflexivity |].
    split; [exact Hc |]. split; reflexivity.
  - destruct (_ <? _); [intros [= <- <-]; auto |]. rewrite Hr.
    destruct (rejectsUpdate prisma _ _); [intros [= <- <-]; auto |].
    destruct (rejectsCreate prisma _) eqn:Hc; [| discriminate].
    intros [= <- <-]. cbn [transactions eventCalls inventories].
    split; [reflexivity |]. split; [reflexivity |]. right.
    eexists r, _. split; [reflexivity |]. split; [reflexivity |].
    split; [exact Hc |]. split; reflexivity.
  - destruct (_ >? _); [intros [= <- <-]; auto |]. rewrite Hr.
    destruct (rejectsUpdate prisma _ _); [intros [= <- <-]; auto |].
    destruct (rejectsCreate prisma _) eqn:Hc;
      [| cbn [transactions eventCalls inventories];
         destruct (_ && _); discriminate].
    intros [= <- <-]. cbn [transactions eventCalls inventories].
    split; [reflexivity |]. split; [reflexivity |]. right.
    eexists r, _. split; [reflexivity |]. split; [reflexivity |].
    split; [exact Hc |]. split; reflexivity.
Qed.

Lemma failed_call_changes_nothing_witness :
  callOn accepting "p1" (Release 1 None) widgetDb =
    (inl (BadRequestException
            "Cannot release more than reserved. Reserved: 0, Requested: 1"),
     widgetDb) /\
  fst (callOn rejectingCreate "p1" (Reserve 30 None) widgetDb)
    = inl PrismaRejected /\
  transactions (snd (callOn rejectingCreate "p1" (Reserve 30 None) widgetDb))
    = transactions widgetDb /\
  eventCalls (snd (callOn rejectingCreate "p1" (Reserve 30 None) widgetDb))
    = eventCalls widgetDb /\
  inventories (snd (callOn rejectingCreate "p1" (Reserve 30 None) widgetDb))
    !! "p1" = Some (reservedRow 30 widgetRow).
Proof.
  split; [reflexivity |]. split; [reflexivity |].
  assert (Hrun :
    callOn rejectingCreate "p1" (Reserve 30 None) widgetDb =
    (inl PrismaRejected,
     snd (callOn rejectingCreate "p1" (Reserve 30 None) widgetDb)))
    by reflexivity.
  destruct (failed_call_changes_nothing rejectingCreate widgetDb "p1"
              (Reserve 30 None) _ _ Hrun) as (Htx & Hev & _).
  split; [exact Htx |]. split; [exact Hev |]. reflexivity.
Defined.

(** X3: [releaseInventory] throws exactly when [reserved < quantity]; the
    message of the bad-request exception gives the reserved and the
    requested amounts and the store is left as it was.  Otherwise it
    returns the stored row with [reserved] lowered and [available] raised
    by [quantity], the quantity on hand unchanged. *)
Theorem releaseInventory_guard db dto r :
  inventories db !! relProductId dto = Some r ->
  (reserved r < relQuantity dto ->
   releaseInventory dto db =
     (inl (BadRequestException
             ("Cannot release more than reserved. Reserved: "
              +:+ show (reserved r)
              +:+ ", Requested: " +:+ show (relQuantity dto))), db))
  /\
  (relQuantity dto <= reserved r ->
   exists r' db',
     releaseInventory dto db = (inr r', db') /\
     quantity r' = quantity r /\
     reserved r' = reserved r - relQuantity dto /\
     available r' = available r + relQuantity dto /\
     inventories db' !! relProductId dto = Some r').
Proof.
  intros Hr. rewrite (releaseInventory_run _ _ _ Hr). split; intros Hq.
  - apply Z.ltb_lt in Hq. rewrite Hq. reflexivity.
  - apply Z.ltb_ge in Hq. rewrite Hq.
    eexists _, _. split; [reflexivity |].
    cbn [inventories]. rewrite lookup_insert_eq. repeat split; reflexivity.
Qed.

Lemma releaseInventory_guard_witness :
  inventories widgetDb !! "p1" = Some widgetRow /\
  releaseInventory
    {| relProductId := "p1"; relQuantity := 1; relReference := None |} widgetDb =
    (inl (BadRequestException
            "Cannot release more than reserved. Reserved: 0, Requested: 1"),
     widgetDb).
Proof.
  split; [reflexivity |].
  apply (releaseInventory_guard widgetDb
           {| relProductId := "p1"; relQuantity := 1; relReference := None |}
           widgetRow); [reflexivity | cbn; lia].
Defined.

(** X4: finalising a reserved sale.  On a row whose [reserved] is not
    negative, for every [q <= available] a [reserveInventory(q)] followed
    by [deductInventory(q)] succeeds twice; afterwards the quantity on hand
    and the available amount are both down by [q] and [reserved] is what it
    was before the reservation. *)
Theorem reserve_then_deduct db pid q ref1 ref2 r :
  inventories db !! pid = Some r ->
  0 <= reserved r ->
  q <= available r ->
  exists r1 db1 r2 db2,
    reserveInventory
      {| resProductId := pid; resQuantity := q; resReference := ref1 |} db
      = (inr r1, db1) /\
    deductInventory pid q ref2 db1 = (inr r2, db2) /\
    inventories db2 !! pid = Some r2 /\
    quantity r2 = quantity r - q /\
    reserved r2 = reserved r /\
    available r2 = available r - q.
Proof.
  intros Hr Hres Hq.
  set (rdto := {| resProductId := pid; resQuantity := q; resReference := ref1 |}).
  rewrite (reserveInventory_run db rdto r Hr). cbn [resQuantity resProductId rdto].
  destruct (available r <? q) eqn:Hlt; [apply Z.ltb_lt in Hlt; lia |].
  eexists _, _, _, _. split; [reflexivity |].
  erewrite deductInventory_run; [| cbn [inventories]; apply lookup_insert_eq].
  unfold reservedRow at 1 2. simpl_row.
  destruct (_ >? _) eqn:Hgt;
    [rewrite Z.gtb_ltb in Hgt; apply Z.ltb_lt in Hgt; lia |].
  split; [reflexivity |].
  cbn [inventories]. rewrite !lookup_insert_eq.
  unfold deductedRow, reservedRow. simpl_row. repeat split; lia.
Qed.

Lemma reserve_then_deduct_witness :
  inventories widgetDb !! "p1" = Some widgetRow /\
  0 <= reserved widgetRow /\
  30 <= available widgetRow /\
  exists r1 db1 r2 db2,
    reserveInventory
      {| resProductId := "p1"; resQuantity := 30; resReference := None |} widgetDb
      = (inr r1, db1) /\
    deductInventory "p1" 30 None db1 = (inr r2, db2) /\
    inventories db2 !! "p1" = Some r2 /\
    quantity r2 = 100 - 30 /\ reserved r2 = 0 /\ available r2 = 100 - 30.
Proof.
  assert (H1 : 0 <= reserved widgetRow) by (cbn; lia).
  assert (H2 : 30 <= available widgetRow) by (cbn; lia).
  split; [reflexivity |]. split; [exact H1 |]. split; [exact H2 |].
  exact (reserve_then_deduct widgetDb "p1" 30 None None widgetRow eq_refl H1 H2).
Defined.

(** X5: whatever the stored row looks like, also when its [available]
    disagrees with [quantity - reserved], the row a successful
    [updateInventory] returns and stores has
    [available = quantity - reserved >= 0]; its threshold and tracking flag
    are those of the request where given and the stored ones otherwise, and
    its product is unchanged. *)
Theorem updateInventory_normalises db pid dto r r' db' :
  inventories db !! pid = Some r ->
  updateInventory pid dto db = (inr r', db') ->
  inventories db' !! pid = Some r' /\
  available r' = quantity r' - reserved r' /\
  0 <= available r' /\
  quantity r' = default (quantity r) (nullish (updQuantity dto)) /\
  reserved r' = default (reserved r) (updReserved dto) /\
  lowStockThreshold r' = default (lowStockThreshold r) (updLowStockThreshold dto) /\
  isTracked r' = default (isTracked r) (updIsTracked dto) /\
  productId r' = productId r /\ product r' = product r.
Proof.
  intros Hr. rewrite (updateInventory_run _ _ _ _ Hr).
  destruct (_ <? 0) eqn:Hneg; [discriminate |]. intros [= <- <-].
  apply Z.ltb_ge in Hneg. revert Hneg.
  cbn [inventories]. rewrite lookup_insert_eq.
  unfold updatedRow. simpl_row. intros Hneg.
  repeat split; try reflexivity; lia.
Qed.

Lemma updateInventory_normalises_witness :
  inventories widgetDb !! "p1" = Some widgetRow /\
  exists r' db',
    updateInventory "p1"
      {| updQuantity := Value 40; updReserved := Some 15;
         updLowStockThreshold := None; updIsTracked := Some false |} widgetDb
      = (inr r', db') /\
    available r' = 40 - 15 /\ lowStockThreshold r' = 10 /\ isTracked r' = false.
Proof.
  split; [reflexivity |].
  set (dto := {| updQuantity := Value 40; updReserved := Some 15;
                 updLowStockThreshold := None; updIsTracked := Some false |}).
  exists (updatedRow dto widgetRow), (snd (updateInventory "p1" dto widgetDb)).
  assert (Hrun : updateInventory "p1" dto widgetDb =
                 (inr (updatedRow dto widgetRow),
                  snd (updateInventory "p1" dto widgetDb))) by reflexivity.
  split; [exact Hrun |].
  destruct (updateInventory_normalises widgetDb "p1" dto widgetRow _ _ eq_refl Hrun)
    as (_ & Hav & _ & Hq & Hrs & Hth & Htr & _).
  rewrite Hav, Hq, Hrs. repeat split; assumption.
Defined.

End CallFacts.

(* ===================================================================== *)
(** * The transaction log over sequences of calls *)
(* ===================================================================== *)

Module LogFacts.
Import Inventory Outcome Ledger CallEffects LedgerLog Scenario InventoryFacts
  LedgerFacts CallFacts.

(** One call: the log grows at its end by rows of the product, the events
    grow at their end, and no other product's row is touched. *)
Lemma call_extends db pid c :
  exists added published,
    transactions (snd (call pid c db)) = transactions db ++ added /\
    eventCalls (snd (call pid c db)) = eventCalls db ++ published /\
    Forall (fun t => txProductId t = pid) added /\
    forall other, other <> pid ->
      inventories (snd (call pid c db)) !! other = inventories db !! other.
Proof.
  destruct (call_cases db pid c) as [[e ->] | (r & Hr & ->)]; cbn [snd].
  - exists [], []. rewrite !app_nil_r.
    split; [reflexivity |]. split; [reflexivity |].
    split; [constructor | reflexivity].
  - exists (callTransactions pid c r), (callEvents pid c r).
    cbn [transactions eventCalls inventories].
    split; [reflexivity |]. split; [reflexivity |]. split.
    + destruct c as [dto | q ref | q ref | q ref]; cbn [callTransactions];
        try (repeat constructor).
      unfold updateTransactions. destruct (updQuantity dto) as [| | q];
        [| | destruct (negb _)]; repeat constructor.
    + intros other Hne. apply lookup_insert_ne. congruence.
Qed.

(** X6: the transaction log is append-only under the ledger calls.  After
    any sequence of update, reserve, release and deduct calls on a product,
    failed ones included, the log is the old log followed by rows of that
    product, and the inventory row of every other product is the one it
    was. *)
Theorem log_is_append_only db pid cs other :
  other <> pid ->
  (exists added,
     transactions (runCalls pid cs db) = transactions db ++ added /\
     Forall (fun t => txProductId t = pid) added) /\
  inventories (runCalls pid cs db) !! other = inventories db !! other.
Proof.
  intros Hne. revert db. induction cs as [| c cs IH]; intros db.
  - split; [exists []; rewrite app_nil_r; split; [reflexivity | constructor]
           | reflexivity].
  - cbn [runCalls foldl].
    destruct (call_extends db pid c) as (added1 & _ & Htx & _ & Hall & Hframe).
    destruct (IH (snd (call pid c db))) as [(added2 & Htx2 & Hall2) Hframe2].
    fold (runCalls pid cs (snd (call pid c db))). split.
    + exists (added1 ++ added2). rewrite Htx2, Htx, app_assoc.
      split; [reflexivity | apply Forall_app; split; assumption].
    + rewrite Hframe2. apply Hframe, Hne.
Qed.

Lemma log_is_append_only_witness :
  "p2" <> "p1" /\
  (exists added,
     transactions
       (runCalls "p1" [Reserve 10 None; Release 20 None; Deduct 5 None] widgetDb)
     = transactions widgetDb ++ added /\
     Forall (fun t => txProductId t = "p1") added) /\
  inventories
    (runCalls "p1" [Reserve 10 None; Release 20 None; Deduct 5 None] widgetDb)
    !! "p2" = inventories widgetDb !! "p2".
Proof.
  assert (Hne : "p2" <> "p1") by discriminate.
  split; [exact Hne |].
  exact (log_is_append_only widgetDb "p1"
           [Reserve 10 None; Release 20 None; Deduct 5 None] "p2" Hne).
Defined.








(** X9: [deductInventory] decides the low-stock alert on the row it wrote,
    with the stored threshold and tracking flag, which a deduction does not
    change.  On success it hands the event service exactly one alert,
    carrying the new available amount and the threshold, when the product
    is tracked and the new available amount is at most the threshold, and
    nothing otherwise. *)
Theorem deductInventory_alert db pid q reference r r' db' :
  inventories db !! pid = Some r ->
  deductInventory pid q reference db = (inr r', db') ->
  lowStockThreshold r' = lowStockThreshold r /\
  isTracked r' = isTracked r /\
  eventCalls db' =
    eventCalls db ++
    (if (available r' <=? lowStockThreshold r) && isTracked r
     then [LowStockAlertEvent pid (sku (product r)) (name (product r))
             (available r') (lowStockThreshold r)]
     else []).
Proof.
  intros Hr. rewrite (deductInventory_run _ _ _ _ _ Hr).
  destruct (_ >? _); [discriminate |]. intros [= <- <-].
  repeat split; reflexivity.
Qed.

Lemma deductInventory_alert_witness :
  inventories widgetDb !! "p1" = Some widgetRow /\
  eventCalls (snd (deductInventory "p1" 96 None widgetDb)) =
    [LowStockAlertEvent "p1" "W-1" "Widget" 4 10].
Proof.
  split; [reflexivity |].
  exact (proj2 (proj2 (deductInventory_alert widgetDb "p1" 96 None widgetRow
                         _ _ eq_refl eq_refl))).
Defined.

End LogFacts.

(* ===================================================================== *)
(** * GetTransactionHistory *)
(* ===================================================================== *)

Module HistoryFacts.
Import Inventory Outcome Ledger CallEffects History Scenario InventoryFacts
  CallFacts.

(** [ceil(total / limit)] for a positive [limit] is the least number of
    pages of [limit] rows that hold [total] rows. *)
Lemma mathCeilDiv_pos total limit :
  0 < limit ->
  exists n,
    mathCeilDiv total limit = Num n /\
    (n - 1) * limit < total <= n * limit.
Proof.
  intros Hl. unfold mathCeilDiv.
  destruct (Z.eqb_spec limit 0) as [-> | _]; [lia |].
  eexists. split; [reflexivity |].
  pose proof (Z.div_mod (- total) limit ltac:(lia)) as Hdm.
  pose proof (Z.mod_pos_bound (- total) limit Hl) as Hb.
  nia.
Qed.

(** Cutting a list into [k] consecutive chunks of [n] elements loses
    nothing when [k * n] covers the list. *)
Lemma chunks_concat {A} (n k : nat) : forall l : list A,
  (length l <= k * n)%nat ->
  concat (map (fun i => firstn n (skipn (i * n) l)) (seq 0 k)) = l.
Proof.
  induction k as [| k IH]; intros l Hlen.
  - destruct l; [reflexivity | cbn in Hlen; lia].
  - cbn [seq map concat]. cbn [Nat.mul]. rewrite skipn_O.
    transitivity (firstn n l ++ skipn n l); [| apply firstn_skipn].
    f_equal. rewrite <- seq_shift, map_map.
    etransitivity; [| apply (IH (skipn n l)); rewrite length_skipn; lia].
    f_equal. apply map_ext. intros i.
    rewrite skipn_skipn. do 2 f_equal. lia.
Qed.

Lemma getTransactionHistory_run pid page limit db :
  1 <= page -> 0 <= limit ->
  getTransactionHistory pid page limit db =
    (inr {| data := firstn (Z.to_nat limit)
                      (skipn (Z.to_nat (page - 1) * Z.to_nat limit)
                         (history pid db));
            total := Z.of_nat (length (history pid db));
            page := page; limit := limit;
            totalPages :=
              mathCeilDiv (Z.of_nat (length (history pid db))) limit |},
     db).
Proof.
  intros Hp Hl. unfold getTransactionHistory, findManyTransactions, countTransactions.
  destruct (Z.ltb_spec ((page - 1) * limit) 0) as [Hneg | _]; [nia |].
  destruct (Z.leb_spec 0 limit) as [_ | Hneg]; [| lia].
  rewrite Z2Nat.inj_mul by lia. reflexivity.
Qed.

(** X10: for a page number of at least 1 and a limit of at least 1,
    [getTransactionHistory] succeeds and leaves the store as it was.  Its
    page holds the rows of the product's history, the most recent first,
    from position [(page - 1) * limit] on, [limit] of them at most;
    [total] counts the whole history and [totalPages] is the least number
    of pages of [limit] rows that hold it. *)
Theorem getTransactionHistory_page pid page limit db :
  1 <= page -> 1 <= limit ->
  exists p n,
    getTransactionHistory pid page limit db = (inr p, db) /\
    data p = firstn (Z.to_nat limit)
               (skipn (Z.to_nat ((page - 1) * limit)) (history pid db)) /\
    Z.of_nat (length (data p)) <= limit /\
    total p = Z.of_nat (length (history pid db)) /\
    totalPages p = Num n /\
    (n - 1) * limit < total p <= n * limit.
Proof.
  intros Hp Hl.
  destruct (mathCeilDiv_pos (Z.of_nat (length (history pid db))) limit)
    as (n & Hn & Hbounds); [lia |].
  eexists _, n. rewrite getTransactionHistory_run by lia.
  split; [reflexivity |]. cbn [data total totalPages].
  split; [rewrite Z2Nat.inj_mul by lia; reflexivity |].
  split; [| split; [reflexivity | split; assumption]].
  pose proof (firstn_le_length (Z.to_nat limit)
                (skipn (Z.to_nat (page - 1) * Z.to_nat limit) (history pid db))).
  lia.
Qed.

Lemma getTransactionHistory_page_witness :
  1 <= 2 /\ 1 <= 1 /\
  exists p n,
    getTransactionHistory "p1" 2 1
      (runCalls "p1" [Reserve 10 None; Release 4 None; Deduct 3 None] widgetDb)
    = (inr p,
       runCalls "p1" [Reserve 10 None; Release 4 None; Deduct 3 None] widgetDb) /\
    Z.of_nat (length (data p)) <= 1 /\
    totalPages p = Num n /\
    (n - 1) * 1 < total p <= n * 1.
Proof.
  assert (H1 : 1 <= 2) by lia. assert (H2 : 1 <= 1) by lia.
  split; [exact H1 |]. split; [exact H2 |].
  destruct (getTransactionHistory_page "p1" 2 1
              (runCalls "p1" [Reserve 10 None; Release 4 None; Deduct 3 None]
                 widgetDb) H1 H2)
    as (p & n & Hrun & _ & Hlen & _ & Hn & Hb).
  exists p, n. repeat split; first [assumption | apply Hb].
Defined.

(** X11: the pages partition the history.  For a limit of at least 1, the
    pages numbered 1 to [totalPages], one after the other, are the whole
    history of the product, the most recent row first, with no row lost or
    repeated, and every page after [totalPages] is empty. *)
Theorem pages_partition_history pid limit db n :
  1 <= limit ->
  mathCeilDiv (Z.of_nat (length (history pid db))) limit = Num n ->
  pagesUpTo pid limit (Z.to_nat n) db = history pid db /\
  forall k, n < k ->
    fst (getTransactionHistory pid k limit db) =
      inr {| data := []; total := Z.of_nat (length (history pid db));
             page := k; limit := limit; totalPages := Num n |}.
Proof.
  intros Hl Hn.
  destruct (mathCeilDiv_pos (Z.of_nat (length (history pid db))) limit)
    as (n' & Hn' & Hlo & Hhi); [lia |].
  assert (n' = n) as -> by congruence.
  assert (Hn0 : 0 <= n) by nia.
  split.
  - unfold pagesUpTo.
    etransitivity;
      [| apply (chunks_concat (Z.to_nat limit) (Z.to_nat n)); nia].
    f_equal. apply map_ext. intros i.
    rewrite getTransactionHistory_run by lia. cbn [fst data].
    do 3 f_equal. lia.
  - intros k Hk. rewrite getTransactionHistory_run by lia. cbn [fst].
    rewrite Hn. do 2 f_equal.
    rewrite skipn_all2; [apply firstn_nil | nia].
Qed.

Lemma pages_partition_history_witness :
  1 <= 2 /\
  mathCeilDiv
    (Z.of_nat
       (length
          (history "p1"
             (runCalls "p1" [Reserve 10 None; Release 4 None; Deduct 3 None]
                widgetDb)))) 2 = Num 2 /\
  pagesUpTo "p1" 2 (Z.to_nat 2)
    (runCalls "p1" [Reserve 10 None; Release 4 None; Deduct 3 None] widgetDb)
  = history "p1"
      (runCalls "p1" [Reserve 10 None; Release 4 None; Deduct 3 None] widgetDb).
Proof.
  assert (H1 : 1 <= 2) by lia.
  split; [exact H1 |]. split; [reflexivity |].
  exact (proj1 (pages_partition_history "p1" 2
                  (runCalls "p1" [Reserve 10 None; Release 4 None; Deduct 3 None]
                     widgetDb) 2 H1 eq_refl)).
Defined.

Lemma history_app pid db added ev inv :
  Forall (fun t => txProductId t = pid) added ->
  history pid {| inventories := inv; transactions := transactions db ++ added;
                 eventCalls := ev |}
  = rev added ++ history pid db.
Proof.
  intros Hall. unfold history. cbn [transactions].
  rewrite List.filter_app, rev_app_distr. f_equal. f_equal.
  induction Hall as [| t l Ht _ IH]; [reflexivity |].
  cbn [List.filter]. rewrite Ht, String.eqb_refl, IH. reflexivity.
Qed.

(** X12: a write shows up first in the history.  After a successful
    reserve, release or deduct on a product its history is the row the call
    appended followed by the history before the call, so the first page of
    [getTransactionHistory], for any limit of at least 1, starts with that
    row; the history of every other product is unchanged. *)
Theorem history_after_call db pid c r r' db' limit other :
  inventories db !! pid = Some r ->
  call pid c db = (inr r', db') ->
  (forall dto, c <> Update dto) ->
  1 <= limit ->
  other <> pid ->
  exists t p,
    callTransactions pid c r = [t] /\
    history pid db' = t :: history pid db /\
    getTransactionHistory pid 1 limit db' = (inr p, db') /\
    head (data p) = Some t /\
    history other db' = history other db.
Proof.
  intros Hr Hrun Hc Hl Hne.
  destruct (call_success _ _ _ _ _ _ Hr Hrun) as [_ ->].
  assert (Hone : exists t, callTransactions pid c r = [t] /\ txProductId t = pid).
  { destruct c as [dto | q ref | q ref | q ref];
      [destruct (Hc dto eq_refl) | ..]; eexists; split; reflexivity. }
  destruct Hone as (t & Ht & Hpid). rewrite Ht.
  assert (Hh : history pid
                 {| inventories := <[pid := writtenRow c r]> (inventories db);
                    transactions := transactions db ++ [t];
                    eventCalls := eventCalls db ++ callEvents pid c r |}
               = t :: history pid db).
  { rewrite (history_app pid db [t]) by (repeat constructor; exact Hpid).
    reflexivity. }
  eexists t, _. split; [reflexivity |]. split; [exact Hh |].
  rewrite getTransactionHistory_run by lia.
  split; [reflexivity |]. cbn [data]. rewrite Hh.
  split.
  - destruct (Z.to_nat limit) as [| l] eqn:Hlim; [lia |]. reflexivity.
  - unfold history. cbn [transactions]. rewrite List.filter_app.
    cbn [List.filter]. destruct (String.eqb_spec (txProductId t) other);
      [congruence |]. rewrite app_nil_r. reflexivity.
Qed.

Lemma history_after_call_witness :
  inventories widgetDb !! "p1" = Some widgetRow /\
  1 <= 20 /\ "p2" <> "p1" /\
  exists t p,
    history "p1" (snd (call "p1" (Reserve 95 (Some "order-1")) widgetDb))
      = t :: history "p1" widgetDb /\
    getTransactionHistory "p1" 1 20
      (snd (call "p1" (Reserve 95 (Some "order-1")) widgetDb))
      = (inr p, snd (call "p1" (Reserve 95 (Some "order-1")) widgetDb)) /\
    head (data p) = Some t.
Proof.
  assert (H1 : 1 <= 20) by lia.
  assert (H2 : "p2" <> "p1") by discriminate.
  assert (H3 : forall dto, Reserve 95 (Some "order-1") <> Update dto)
    by discriminate.
  split; [reflexivity |]. split; [exact H1 |]. split; [exact H2 |].
  destruct (history_after_call widgetDb "p1" (Reserve 95 (Some "order-1"))
              widgetRow _ _ 20 "p2" eq_refl eq_refl H3 H1 H2)
    as (t & p & _ & Hh & Hrun & Hhd & _).
  exists t, p. repeat split; assumption.
Defined.

(** X13: the route [GET inventory/:productId/transactions] falls back to
    page 1 when the page is missing or 0 and to limit 20 when the limit is
    missing or 0.  For parameters that are missing or not negative it never
    fails, leaves the store as it was, and answers with a page number and a
    limit of at least 1 and with at most [limit] rows. *)
Theorem transaction_route_defaults pid page limit db :
  nonnegOpt page -> nonnegOpt limit ->
  exists p,
    getTransactionHistoryRoute pid page limit db = (inr p, db) /\
    History.page p = orDefault page 1 /\
    History.limit p = orDefault limit 20 /\
    1 <= History.page p /\
    1 <= History.limit p /\
    (page = None \/ page = Some 0 -> History.page p = 1) /\
    (limit = None \/ limit = Some 0 -> History.limit p = 20) /\
    Z.of_nat (length (data p)) <= History.limit p.
Proof.
  intros Hp Hl. unfold getTransactionHistoryRoute.
  assert (Hp1 : 1 <= orDefault page 1).
  { destruct page as [z |]; cbn in *; [destruct (Z.eqb_spec z 0) |]; lia. }
  assert (Hl1 : 1 <= orDefault limit 20).
  { destruct limit as [z |]; cbn in *; [destruct (Z.eqb_spec z 0) |]; lia. }
  eexists. rewrite getTransactionHistory_run by lia.
  split; [reflexivity |]. cbn [History.page History.limit data].
  split; [reflexivity |]. split; [reflexivity |].
  split; [exact Hp1 |]. split; [exact Hl1 |].
  split; [intros [-> | ->]; reflexivity |].
  split; [intros [-> | ->]; reflexivity |].
  pose proof (firstn_le_length (Z.to_nat (orDefault limit 20))
                (skipn (Z.to_nat (orDefault page 1 - 1)
                        * Z.to_nat (orDefault limit 20)) (history pid db))).
  lia.
Qed.

Lemma transaction_route_defaults_witness :
  nonnegOpt (Some 0) /\ nonnegOpt None /\
  exists p,
    getTransactionHistoryRoute "p1" (Some 0) None widgetDb = (inr p, widgetDb) /\
    History.page p = 1 /\ History.limit p = 20.
Proof.
  assert (H1 : nonnegOpt (Some 0)) by (cbn; lia).
  assert (H2 : nonnegOpt None) by exact I.
  split; [exact H1 |]. split; [exact H2 |].
  destruct (transaction_route_defaults "p1" (Some 0) None widgetDb H1 H2)
    as (p & Hrun & _ & _ & _ & _ & Hp & Hl & _).
  exists p. split; [exact Hrun |].
  split; [apply Hp; right; reflexivity | apply Hl; left; reflexivity].
Defined.

End HistoryFacts.

(* ===================================================================== *)
(** * The order of the low-stock list *)
(* ===================================================================== *)

Module LowStockOrder.
Import Inventory Outcome Scenario LowStock.

Lemma StronglySorted_filter {A} (R : A -> A -> Prop) (f : A -> bool) l :
  StronglySorted R l -> StronglySorted R (List.filter f l).
Proof.
  induction 1 as [| x l Hs IH Hall]; cbn [List.filter]; [constructor |].
  destruct (f x); [| exact IH].
  constructor; [exact IH |].
  rewrite Forall_forall in *. intros y Hy.
  apply list_elem_of_In, filter_In in Hy as [Hy _].
  apply Hall, list_elem_of_In, Hy.
Qed.

(** X14: [getLowStockProducts] lists the rows in ascending order of
    [available], the scarcest product first, with or without an override,
    and leaves the store as it was. *)
Theorem getLowStockProducts_ascending db threshold :
  exists result,
    getLowStockProducts threshold db = (inr result, db) /\
    StronglySorted (fun a b => available a <= available b) result.
Proof.
  eexists. split; [apply getLowStockProducts_run |].
  apply StronglySorted_filter, Sorted_StronglySorted;
    [| apply orderByAvailable_sorted].
  intros a b c Hab Hbc. lia.
Qed.

End LowStockOrder.

(* ===================================================================== *)
(** * How long and how often the publishers try *)
(* ===================================================================== *)

Module PublisherBounds.
Import UserEventService Scenario PublisherFacts Waiting.

Lemma waited_schedule eventType start more :
  waited (schedule eventType start more) = retryDelay * Z.of_nat more.
Proof.
  revert start. induction more as [| k IH]; intros start.
  - cbn. lia.
  - cbn [schedule waited foldr]. fold (waited (schedule eventType (S start) k)).
    rewrite IH. lia.
Qed.

(** X15: the time a call of [publishEvent] spends waiting is bounded.  For
    every routing key, payload and behaviour of the broker it makes at most
    4 passes, waits 5000 ms once per pass after the first, and so holds its
    caller for at most 15000 ms of waiting. *)
Theorem publishEvent_wait_bound
    {Data : Type} (broker : string -> Data -> nat -> AttemptOutcome)
    (eventType : string) (data : Data) :
  (1 <= attempts (snd (publishEvent broker eventType data 0)) <= 4)%nat /\
  waited (snd (publishEvent broker eventType data 0)) =
    5000 * (Z.of_nat (attempts (snd (publishEvent broker eventType data 0))) - 1) /\
  waited (snd (publishEvent broker eventType data 0)) <= 15000.
Proof.
  destruct (publishEvent_from broker eventType data 0)
    as (b & more & Hsum & Hrun & _); [unfold maxRetries; lia |].
  rewrite Hrun. cbn [snd]. rewrite attempts_schedule, waited_schedule.
  unfold maxRetries, retryDelay in *. cbn [Nat.add] in Hsum. lia.
Qed.

(** X16: [publishEvent] stops at the first pass that goes through.  When
    the passes numbered 0 to [k - 1] fail and the pass numbered [k <= 3]
    succeeds, the call resolves to [true] after exactly [k + 1] passes and
    [k] waits, and makes no pass after the successful one. *)
Theorem publishEvent_first_success
    {Data : Type} (broker : string -> Data -> nat -> AttemptOutcome)
    (eventType : string) (data : Data) (k : nat) :
  (k <= maxRetries)%nat ->
  Forall (fun n => fails (broker eventType data n) = true) (seq 0 k) ->
  fails (broker eventType data k) = false ->
  publishEvent broker eventType data 0 = (inr true, schedule eventType 0 k) /\
  attempts (schedule eventType 0 k) = S k /\
  waited (schedule eventType 0 k) = 5000 * Z.of_nat k.
Proof.
  intros Hk Hbefore Hok.
  destruct (publishEvent_from broker eventType data 0)
    as (b & more & Hsum & Hrun & Hall & Hb & Hlast); [lia |].
  cbn [Nat.add] in *.
  assert (more = k) as ->.
  { destruct (Nat.lt_trichotomy more k) as [Hlt | [Heq | Hgt]]; [| exact Heq |].
    - assert (Hf : fails (broker eventType data more) = true).
      { rewrite Forall_forall in Hbefore. apply Hbefore, elem_of_seq. lia. }
      rewrite Hf in Hb. cbn in Hb. subst b.
      destruct Hlast as [? | ?]; [discriminate | lia].
    - assert (Hf : fails (broker eventType data k) = true).
      { rewrite Forall_forall in Hall. apply Hall, elem_of_seq. lia. }
      congruence. }
  rewrite Hok in Hb. cbn in Hb. subst b.
  split; [exact Hrun |]. split; [apply attempts_schedule |].
  rewrite waited_schedule. reflexivity.
Qed.

Lemma publishEvent_first_success_witness :
  (3 <= maxRetries)%nat /\
  Forall (fun n => fails (thirdTimeUnlucky "user.deleted" "u-1" n) = true)
    (seq 0 3) /\
  fails (thirdTimeUnlucky "user.deleted" "u-1" 3) = false /\
  publishEvent thirdTimeUnlucky "user.deleted" "u-1" 0 =
    (inr true, schedule "user.deleted" 0 3).
Proof.
  assert (H1 : (3 <= maxRetries)%nat) by (unfold maxRetries; lia).
  assert (H2 : Forall (fun n => fails (thirdTimeUnlucky "user.deleted" "u-1" n) = true)
                 (seq 0 3)) by (repeat constructor).
  assert (H3 : fails (thirdTimeUnlucky "user.deleted" "u-1" 3) = false)
    by reflexivity.
  split; [exact H1 |]. split; [exact H2 |]. split; [exact H3 |].
  exact (proj1 (publishEvent_first_success thirdTimeUnlucky "user.deleted" "u-1"
                  3 H1 H2 H3)).
Defined.

(** X17: [publishEvent] gives up after the fourth failure.  When the four
    passes numbered 0 to 3 all fail -- the connection is not ready, the
    channel refuses the message, or the call throws -- the promise resolves
    to [false] after exactly four passes and three waits of 5000 ms. *)
Theorem publishEvent_exhausts_retries
    {Data : Type} (broker : string -> Data -> nat -> AttemptOutcome)
    (eventType : string) (data : Data) :
  Forall (fun n => fails (broker eventType data n) = true) (seq 0 4) ->
  publishEvent broker eventType data 0 =
    (inr false,
     [Attempt eventType 0; Sleep 5000; Attempt eventType 1; Sleep 5000;
      Attempt eventType 2; Sleep 5000; Attempt eventType 3]) /\
  waited (snd (publishEvent broker eventType data 0)) = 15000.
Proof.
  intros Hall.
  destruct (publishEvent_from broker eventType data 0)
    as (b & more & Hsum & Hrun & _ & Hb & Hl);
    [unfold maxRetries; lia |].
  cbn [Nat.add] in *. unfold maxRetries in *.
  assert (Hfail : fails (broker eventType data more) = true).
  { rewrite Forall_forall in Hall. apply Hall, elem_of_seq. lia. }
  rewrite Hfail in Hb. cbn in Hb. subst b.
  destruct Hl as [? | ->]; [discriminate |].
  rewrite Hrun. split; reflexivity.
Qed.

Lemma publishEvent_exhausts_retries_witness :
  Forall (fun n => fails (neverReady "user.deleted" "u-1" n) = true) (seq 0 4) /\
  publishEvent neverReady "user.deleted" "u-1" 0 =
    (inr false,
     [Attempt "user.deleted" 0; Sleep 5000; Attempt "user.deleted" 1; Sleep 5000;
      Attempt "user.deleted" 2; Sleep 5000; Attempt "user.deleted" 3]).
Proof.
  assert (H : Forall (fun n => fails (neverReady "user.deleted" "u-1" n) = true)
                (seq 0 4)) by (repeat constructor).
  split; [exact H |].
  exact (proj1 (publishEvent_exhausts_retries neverReady "user.deleted" "u-1" H)).
Defined.

(** X18: the product-service [publish] tries once and never waits.  It
    resolves to [false] without touching the channel when the service is
    not connected or has no channel; otherwise it makes one pass and
    resolves to [true] when [channel.publish] returns -- whatever boolean
    it returns -- and to [false] when it throws. *)
Theorem product_publish_tries_once
    {Data : Type} (channelPublish : string -> Data -> ProductEventService.ChannelPublish)
    (svc : ProductEventService.EventService) (routingKey : string) (data : Data) :
  exists b,
    ProductEventService.publish channelPublish svc routingKey data =
      (inr b,
       if ProductEventService.isConnected svc && ProductEventService.channel svc
       then [Attempt routingKey 0] else []) /\
    (attempts (snd (ProductEventService.publish channelPublish svc routingKey data))
       <= 1)%nat /\
    waited (snd (ProductEventService.publish channelPublish svc routingKey data)) = 0 /\
    b = ProductEventService.isConnected svc && ProductEventService.channel svc
        && match channelPublish routingKey data with
           | ProductEventService.Returned _ => true
           | ProductEventService.Threw _ => false
           end.
Proof.
  unfold ProductEventService.publish.
  destruct (ProductEventService.isConnected svc),
    (ProductEventService.channel svc); cbn;
    [destruct (channelPublish routingKey data) |..];
    eexists; repeat split; cbn; lia.
Qed.

End PublisherBounds.

(* ===================================================================== *)
(** * The category service *)
(* ===================================================================== *)

Module CategoryFacts.
Import Category CategoryOutcome CategoryScenario.

Ltac unfold_category :=
  unfold create, update, delete, findOne, findBySlug, findUniqueById,
    findUniqueBySlug, findFirstOtherWithSlug, createRow, updateRow, deleteRow,
    countProducts, countChildren, bind, ret, throw.

Lemma in_rows db c :
  In c (rows db) <-> exists i, categories db !! i = Some c.
Proof.
  unfold rows. rewrite <- list_elem_of_In, list_elem_of_fmap. split.
  - intros ([i c'] & -> & Hin). exists i.
    apply elem_of_map_to_list in Hin. exact Hin.
  - intros (i & Hi). exists (i, c). split; [reflexivity |].
    apply elem_of_map_to_list. exact Hi.
Qed.

(** The outcomes of [create]. *)
Lemma create_cases newId dto db :
  (create newId dto db =
     (inl (ConflictException "Category with this slug already exists"), db) /\
   exists c, In c (rows db) /\ slug c = crSlug dto) \/
  (create newId dto db =
     (inl (NotFoundException "Parent category not found"), db) /\
   (forall c, In c (rows db) -> slug c <> crSlug dto) /\
   exists p, crParentId dto = Some p /\ p <> "" /\ categories db !! p = None) \/
  (create newId dto db = (inl PrismaUniqueViolation, db) /\
   is_Some (categories db !! newId)) \/
  (create newId dto db =
     (inr (view false (newRow newId dto)
             (withCategories (<[newId := newRow newId dto]> (categories db)) db)),
      withCategories (<[newId := newRow newId dto]> (categories db)) db) /\
   (forall c, In c (rows db) -> slug c <> crSlug dto) /\
   (forall p, crParentId dto = Some p -> p <> "" ->
      is_Some (categories db !! p)) /\
   categories db !! newId = None).
Proof.
  unfold_category.
  destruct (List.find _ (rows db)) as [c |] eqn:Hfind.
  { left. split; [reflexivity |]. apply find_some in Hfind as [Hin Hs].
    exists c. split; [exact Hin |]. apply String.eqb_eq, Hs. }
  right.
  assert (Hfresh : forall c, In c (rows db) -> slug c <> crSlug dto).
  { intros c Hin. apply String.eqb_neq. exact (find_none _ _ Hfind c Hin). }
  destruct (crParentId dto) as [p |] eqn:Hp;
    cbn [truthy default from_option Datatypes.id].
  - destruct (String.eqb_spec p "") as [-> | Hne]; cbn [negb].
    + right. destruct (categories db !! newId) eqn:Hnew.
      * left. split; [reflexivity | eexists; reflexivity].
      * right. split; [unfold newRow; rewrite Hp; reflexivity |].
        split; [exact Hfresh |].
        split; [| reflexivity]. intros p' [= <-] Hp'. congruence.
    + destruct (categories db !! p) eqn:Hpar.
      * right. destruct (categories db !! newId) eqn:Hnew.
        -- left. split; [reflexivity | eexists; reflexivity].
        -- right. split; [unfold newRow; rewrite Hp; reflexivity |].
           split; [exact Hfresh |].
           split; [| reflexivity]. intros p' [= <-] _. eexists; exact Hpar.
      * left. split; [reflexivity |]. split; [exact Hfresh |].
        exists p. repeat split; assumption.
  - right. destruct (categories db !! newId) eqn:Hnew.
    + left. split; [reflexivity | eexists; reflexivity].
    + right. split; [unfold newRow; rewrite Hp; reflexivity |].
      split; [exact Hfresh |].
      split; [| reflexivity]. intros p' [=].
Qed.

(** The outcomes of [update]. *)
Lemma update_cases i dto db :
  (update i dto db = (inl (NotFoundException "Category not found"), db) /\
   categories db !! i = None) \/
  (update i dto db =
     (inl (ConflictException "Category with this slug already exists"), db) /\
   is_Some (categories db !! i) /\
   exists s c, upSlug dto = Some s /\ s <> "" /\
     In c (rows db) /\ slug c = s /\ id c <> i) \/
  (exists c,
     categories db !! i = Some c /\
     update i dto db =
       (inr (view false (changedRow dto c)
               (withCategories (<[i := changedRow dto c]> (categories db)) db)),
        withCategories (<[i := changedRow dto c]> (categories db)) db) /\
     forall s, upSlug dto = Some s -> s <> "" ->
       forall o, In o (rows db) -> slug o = s -> id o = i).
Proof.
  unfold_category.
  destruct (categories db !! i) as [c |] eqn:Hc;
    [| left; split; reflexivity].
  right. destruct (upSlug dto) as [s |] eqn:Hs;
    cbn [truthy default from_option Datatypes.id].
  - destruct (String.eqb_spec s "") as [-> | Hne]; cbn [negb].
    + right. rewrite Hc. exists c. split; [reflexivity |].
      split; [unfold changedRow; rewrite Hs; reflexivity |].
      intros s' [= <-] Hs'. congruence.
    + destruct (List.find _ (rows db)) as [o |] eqn:Hfind.
      * left. split; [reflexivity |]. split; [eexists; reflexivity |].
        apply find_some in Hfind as [Hin Ho].
        apply andb_true_iff in Ho as [Ho1 Ho2].
        exists s, o. split; [reflexivity |]. split; [exact Hne |].
        split; [exact Hin |]. split; [apply String.eqb_eq, Ho1 |].
        apply String.eqb_neq. destruct (String.eqb (id o) i); [discriminate | reflexivity].
      * right. rewrite Hc. exists c. split; [reflexivity |].
        split; [unfold changedRow; rewrite Hs; reflexivity |].
        intros s' [= <-] _ o Hin Hso.
        pose proof (find_none _ _ Hfind o Hin) as Hno. cbn beta in Hno.
        apply String.eqb_eq in Hso. rewrite Hso in Hno. cbn [andb] in Hno.
        apply String.eqb_eq. destruct (String.eqb (id o) i); [reflexivity | discriminate].
  - right. rewrite Hc. exists c. split; [reflexivity |].
    split; [unfold changedRow; rewrite Hs; reflexivity |].
    intros s' [=].
Qed.

(** The outcomes of [delete]. *)
Lemma delete_cases i db :
  (delete i db = (inl (NotFoundException "Category not found"), db) /\
   categories db !! i = None) \/
  (delete i db =
     (inl (ConflictException
             "Cannot delete category with products. Move or delete products first."),
      db) /\
   is_Some (categories db !! i) /\ productsOf i db <> []) \/
  (delete i db =
     (inl (ConflictException
             "Cannot delete category with subcategories. Delete subcategories first."),
      db) /\
   is_Some (categories db !! i) /\ productsOf i db = [] /\ childrenOf i db <> []) \/
  (delete i db = (inr tt, withCategories (base.delete i (categories db)) db) /\
   is_Some (categories db !! i) /\ productsOf i db = [] /\ childrenOf i db = []).
Proof.
  unfold_category.
  destruct (categories db !! i) as [c |] eqn:Hc;
    [| left; split; reflexivity].
  right. destruct (productsOf i db) as [| p ps] eqn:Hp; cbn [length Nat.ltb Nat.leb].
  - right. destruct (childrenOf i db) as [| k ks] eqn:Hk; cbn [length Nat.ltb Nat.leb].
    + right. rewrite Hc. repeat split; eexists; reflexivity.
    + left. repeat split; [eexists; reflexivity | discriminate].
  - left. repeat split; [eexists; reflexivity | discriminate].
Qed.

(** A request leaves the catalog as it was, or makes one of three
    writes. *)
Lemma serve_cases db r :
  serve db r = db \/
  (exists newId dto,
     r = Create newId dto /\
     serve db r = withCategories (<[newId := newRow newId dto]> (categories db)) db /\
     (forall c, In c (rows db) -> slug c <> crSlug dto) /\
     (forall p, crParentId dto = Some p -> p <> "" -> is_Some (categories db !! p)) /\
     categories db !! newId = None) \/
  (exists i dto c,
     r = Update i dto /\
     categories db !! i = Some c /\
     serve db r = withCategories (<[i := changedRow dto c]> (categories db)) db /\
     forall s, upSlug dto = Some s -> s <> "" ->
       forall o, In o (rows db) -> slug o = s -> id o = i) \/
  (exists i,
     r = Delete i /\
     serve db r = withCategories (base.delete i (categories db)) db /\
     is_Some (categories db !! i) /\ productsOf i db = [] /\ childrenOf i db = []).
Proof.
  destruct r as [newId dto | i dto | i]; cbn [serve].
  - destruct (create_cases newId dto db)
      as [[-> _] | [[-> _] | [[-> _] | (-> & H1 & H2 & H3)]]];
      [left; reflexivity .. |].
    right. left. exists newId, dto. repeat split; assumption.
  - destruct (update_cases i dto db) as [[-> _] | [[-> _] | (c & Hc & -> & H)]];
      [left; reflexivity .. |].
    right. right. left. exists i, dto, c. repeat split; assumption.
  - destruct (delete_cases i db)
      as [[-> _] | [[-> _] | [[-> _] | (-> & H1 & H2 & H3)]]];
      [left; reflexivity .. |].
    right. right. right. exists i. repeat split; assumption.
Qed.

Lemma no_children i db c j :
  childrenOf i db = [] -> categories db !! j = Some c -> parentId c <> Some i.
Proof.
  intros Hk Hc Hp.
  assert (Hin : In c (childrenOf i db)).
  { apply filter_In. split; [apply in_rows; exists j; exact Hc |].
    rewrite Hp. apply String.eqb_refl. }
  rewrite Hk in Hin. destruct Hin.
Qed.

Lemma serve_keeps_slugs db r :
  keyed db -> slugsUnique db -> slugSafe r ->
  keyed (serve db r) /\ slugsUnique (serve db r).
Proof.
  intros Hkey Huniq Hsafe.
  destruct (serve_cases db r)
    as [-> | [(newId & dto & -> & -> & Hfresh & _ & Hnew)
           | [(i & dto & c & -> & Hc & -> & Hother)
             | (i & -> & -> & _)]]];
    [split; assumption | ..]; unfold keyed, slugsUnique, withCategories;
    cbn [categories].
  - split.
    + intros a ca. rewrite lookup_insert. case_decide as Ha;
        [intros [= <-]; subst a; reflexivity | apply Hkey].
    + intros a b ca cb. rewrite !lookup_insert.
      case_decide as Ha; case_decide as Hb; subst.
      * reflexivity.
      * intros [= <-] Hcb Hs. cbn [newRow slug] in Hs.
        destruct (Hfresh cb); [apply in_rows; eauto | congruence].
      * intros Hca [= <-] Hs. cbn [newRow slug] in Hs.
        destruct (Hfresh ca); [apply in_rows; eauto | congruence].
      * apply Huniq.
  - assert (Hclash : forall b cb, b <> i -> categories db !! b = Some cb ->
                       slug (changedRow dto c) <> slug cb).
    { intros b cb Hb Hcb Hs. cbn [changedRow slug] in Hs.
      destruct (upSlug dto) as [s |] eqn:Hslug;
        cbn [default from_option Datatypes.id] in Hs.
      - apply Hb. rewrite <- (Hkey b cb Hcb).
        apply (Hother s eq_refl); [| apply in_rows; eauto | congruence].
        intros ->. apply Hsafe. cbn [slugSafe]. exact Hslug.
      - apply Hb. symmetry. exact (Huniq i b c cb Hc Hcb Hs). }
    split.
    + intros a ca. rewrite lookup_insert. case_decide as Ha;
        [intros [= <-]; subst a; exact (Hkey i c Hc) | apply Hkey].
    + intros a b ca cb. rewrite !lookup_insert.
      case_decide as Ha; case_decide as Hb; subst.
      * reflexivity.
      * intros [= <-] Hcb Hs. destruct (Hclash b cb); auto.
      * intros Hca [= <-] Hs. destruct (Hclash a ca); auto.
      * apply Huniq.
  - split.
    + intros a ca Ha. apply lookup_delete_Some in Ha as [_ Ha]. exact (Hkey a ca Ha).
    + intros a b ca cb Ha Hb.
      apply lookup_delete_Some in Ha as [_ Ha].
      apply lookup_delete_Some in Hb as [_ Hb]. exact (Huniq a b ca cb Ha Hb).
Qed.

Lemma serve_keeps_parents db r :
  parentsExist db -> parentSafe r -> parentsExist (serve db r).
Proof.
  intros Hpar Hsafe.
  destruct (serve_cases db r)
    as [-> | [(newId & dto & -> & -> & _ & Hparent & Hnew)
           | [(i & dto & c & -> & Hc & -> & _)
             | (i & -> & -> & _ & _ & Hnokids)]]];
    [assumption | ..]; unfold parentsExist, withCategories; cbn [categories].
  - intros a ca p. rewrite lookup_insert. case_decide as Ha.
    + intros [= <-] Hp. cbn [newRow parentId] in Hp.
      assert (Hne : p <> "") by (intros ->; exact (Hsafe Hp)).
      destruct (Hparent p Hp Hne) as [cp Hcp].
      exists cp. rewrite lookup_insert_ne; [exact Hcp | congruence].
    + intros Hca Hp. destruct (Hpar a ca p Hca Hp) as [cp Hcp].
      rewrite lookup_insert. case_decide; eauto.
  - cbn [parentSafe] in Hsafe.
    intros a ca p. rewrite lookup_insert. case_decide as Ha.
    + intros [= <-] Hp. cbn [changedRow parentId] in Hp. rewrite Hsafe in Hp.
      destruct (Hpar i c p Hc Hp) as [cp Hcp].
      rewrite lookup_insert. case_decide; eauto.
    + intros Hca Hp. destruct (Hpar a ca p Hca Hp) as [cp Hcp].
      rewrite lookup_insert. case_decide; eauto.
  - intros a ca p Ha Hp. apply lookup_delete_Some in Ha as [Hai Ha].
    destruct (Hpar a ca p Ha Hp) as [cp Hcp].
    exists cp. apply lookup_delete_Some. split; [| exact Hcp].
    intros <-. exact (no_children i db ca a Hnokids Ha Hp).
Qed.

(** X19: the checks of the category service keep slugs unique.  Starting
    from a catalog whose rows are stored under their own id and where no
    two categories share a slug, after any sequence of create, update and
    delete requests, served or refused, in which no update sets the empty
    slug, again no two categories share a slug. *)
Theorem slugs_stay_unique db rs :
  keyed db -> slugsUnique db -> Forall slugSafe rs ->
  keyed (serveAll rs db) /\ slugsUnique (serveAll rs db).
Proof.
  revert db. induction rs as [| r rs IH]; intros db Hkey Huniq Hsafe.
  - split; assumption.
  - apply Forall_cons in Hsafe as [Hr Hrs]. cbn [serveAll foldl].
    destruct (serve_keeps_slugs db r Hkey Huniq Hr) as [Hkey' Huniq'].
    exact (IH (serve db r) Hkey' Huniq' Hrs).
Qed.

(** X20: create and delete keep the category tree closed.  Starting from a
    catalog where every parent a category names exists, after any sequence
    of requests in which no create names the empty parent and no update
    sets a parent, every parent a category names still exists: create
    refuses a missing parent and delete refuses a category that has
    subcategories. *)
Theorem parents_stay db rs :
  parentsExist db -> Forall parentSafe rs -> parentsExist (serveAll rs db).
Proof.
  revert db. induction rs as [| r rs IH]; intros db Hpar Hsafe.
  - exact Hpar.
  - apply Forall_cons in Hsafe as [Hr Hrs]. cbn [serveAll foldl].
    exact (IH (serve db r) (serve_keeps_parents db r Hpar Hr) Hrs).
Qed.

Lemma audioCatalog_keyed : keyed audioCatalog.
Proof.
  intros i c Hc. cbn in Hc. apply lookup_singleton_Some in Hc as [<- <-].
  reflexivity.
Qed.

Lemma audioCatalog_slugsUnique : slugsUnique audioCatalog.
Proof.
  intros i j ci cj Hi Hj _. cbn in Hi, Hj.
  apply lookup_singleton_Some in Hi as [<- _].
  apply lookup_singleton_Some in Hj as [<- _]. reflexivity.
Qed.

Lemma audioCatalog_parentsExist : parentsExist audioCatalog.
Proof.
  intros i c p Hc Hp. cbn in Hc. apply lookup_singleton_Some in Hc as [_ <-].
  discriminate Hp.
Qed.

Lemma slugs_stay_unique_witness :
  keyed audioCatalog /\ slugsUnique audioCatalog /\ Forall slugSafe requests /\
  slugsUnique (serveAll requests audioCatalog).
Proof.
  assert (Hsafe : Forall slugSafe requests)
    by (repeat constructor; cbn; discriminate).
  split; [exact audioCatalog_keyed |]. split; [exact audioCatalog_slugsUnique |].
  split; [exact Hsafe |].
  exact (proj2 (slugs_stay_unique audioCatalog requests audioCatalog_keyed
                  audioCatalog_slugsUnique Hsafe)).
Defined.

Lemma parents_stay_witness :
  parentsExist audioCatalog /\ Forall parentSafe requests /\
  parentsExist (serveAll requests audioCatalog).
Proof.
  assert (Hsafe : Forall parentSafe requests).
  { repeat constructor; cbn; first [discriminate | reflexivity]. }
  split; [exact audioCatalog_parentsExist |]. split; [exact Hsafe |].
  exact (parents_stay audioCatalog requests audioCatalog_parentsExist Hsafe).
Defined.

(** X21: a request the category service refuses writes nothing: when
    create, update or delete throws, the catalog is the one the call
    started from. *)
Theorem refused_request_changes_nothing db r e :
  refusal db r = Some e ->
  serve db r = db.
Proof.
  destruct r as [newId dto | i dto | i]; cbn [serve refusal].
  - destruct (create_cases newId dto db)
      as [[-> _] | [[-> _] | [[-> _] | (-> & _)]]]; cbn [fst snd thrown];
      first [reflexivity | discriminate].
  - destruct (update_cases i dto db) as [[-> _] | [[-> _] | (c & _ & -> & _)]];
      cbn [fst snd thrown]; first [reflexivity | discriminate].
  - destruct (delete_cases i db)
      as [[-> _] | [[-> _] | [[-> _] | (-> & _)]]]; cbn [fst snd thrown];
      first [reflexivity | discriminate].
Qed.

Lemma refused_request_changes_nothing_witness :
  refusal audioCatalog (Delete "c1") =
    Some (ConflictException
            "Cannot delete category with products. Move or delete products first.")
  /\ serve audioCatalog (Delete "c1") = audioCatalog.
Proof.
  assert (H : refusal audioCatalog (Delete "c1") =
    Some (ConflictException
            "Cannot delete category with products. Move or delete products first."))
    by reflexivity.
  split; [exact H |].
  exact (refused_request_changes_nothing audioCatalog (Delete "c1") _ H).
Defined.

(** X22: [create] looks at the slug first.  When a category already has
    the slug it throws the conflict exception "Category with this slug
    already exists", whatever the parent named; when the slug is free and
    the request names a non-empty parent that does not exist it throws the
    not-found exception "Parent category not found".  Neither writes. *)
Theorem create_refusals newId dto db :
  ((exists c, In c (rows db) /\ slug c = crSlug dto) ->
   create newId dto db =
     (inl (ConflictException "Category with this slug already exists"), db))
  /\
  ((forall c, In c (rows db) -> slug c <> crSlug dto) ->
   (exists p, crParentId dto = Some p /\ p <> "" /\ categories db !! p = None) ->
   create newId dto db =
     (inl (NotFoundException "Parent category not found"), db)).
Proof.
  destruct (create_cases newId dto db)
    as [(-> & c & Hin & Hs) | [(-> & Hfresh & p & Hp & Hne & Hnone)
       | [(Hrun & Hdup) | (Hrun & Hfresh & Hparent & Hnew)]]].
  - split; [reflexivity |]. intros Hf _. destruct (Hf c Hin Hs).
  - split; [| reflexivity]. intros (c & Hin & Hs). destruct (Hfresh c Hin Hs).
  - split.
    + intros (c & Hin & Hs). exfalso. revert Hrun. unfold_category.
      destruct (List.find _ (rows db)) eqn:Hfind; [discriminate |].
      apply String.eqb_eq in Hs. rewrite (find_none _ _ Hfind c Hin) in Hs.
      discriminate.
    + intros Hfresh (p & Hp & Hne & Hnone). exfalso. revert Hrun.
      unfold_category.
      destruct (List.find _ (rows db)); [discriminate |].
      rewrite Hp. cbn [truthy default from_option Datatypes.id].
      destruct (String.eqb_spec p ""); [contradiction |]. cbn [negb].
      rewrite Hnone. discriminate.
  - split.
    + intros (c & Hin & Hs). destruct (Hfresh c Hin Hs).
    + intros _ (p & Hp & Hne & Hnone).
      destruct (Hparent p Hp Hne) as [cp Hcp]. congruence.
Qed.

Lemma create_refusals_witness :
  (exists c, In c (rows audioCatalog) /\ slug c = "audio") /\
  create "c9"
    {| crName := "Again"; crDescription := ""; crParentId := Some "missing";
       crSlug := "audio" |} audioCatalog =
    (inl (ConflictException "Category with this slug already exists"),
     audioCatalog).
Proof.
  assert (H : exists c, In c (rows audioCatalog) /\ slug c = "audio").
  { exists audio. split; [left; reflexivity | reflexivity]. }
  split; [exact H |].
  exact (proj1 (create_refusals "c9"
                  {| crName := "Again"; crDescription := "";
                     crParentId := Some "missing"; crSlug := "audio" |}
                  audioCatalog) H).
Defined.

(** X23: what [create] stores can be read back.  After a successful
    [create] the new category is found by [findOne] under its id and by
    [findBySlug] under its slug, with the name, description, parent and
    slug of the request, and every category that was there before is still
    stored unchanged. *)
Theorem create_then_find newId dto db v db' :
  create newId dto db = (inr v, db') ->
  category v = newRow newId dto /\
  (exists v1, findOne newId db' = (inr v1, db') /\ category v1 = newRow newId dto) /\
  (exists v2, findBySlug (crSlug dto) db' = (inr v2, db') /\
              category v2 = newRow newId dto) /\
  forall i c, categories db !! i = Some c -> categories db' !! i = Some c.
Proof.
  intros Hrun.
  destruct (create_cases newId dto db)
    as [[H _] | [[H _] | [[H _] | (H & Hfresh & _ & Hnew)]]];
    rewrite H in Hrun; try discriminate.
  injection Hrun as <- <-. split; [reflexivity |]. split; [| split].
  - unfold_category. unfold withCategories. cbn [categories].
    rewrite lookup_insert_eq. eexists. split; reflexivity.
  - unfold_category.
    destruct (List.find _ (rows _)) as [c |] eqn:Hfind.
    + eexists. split; [reflexivity |]. cbn [view category].
      apply find_some in Hfind as [Hin Hs]. apply String.eqb_eq in Hs.
      apply in_rows in Hin as (i & Hi). unfold withCategories in Hi.
      cbn [categories] in Hi. rewrite lookup_insert in Hi.
      case_decide; [congruence |].
      destruct (Hfresh c); [apply in_rows; eauto | exact Hs].
    + exfalso.
      assert (Hin : In (newRow newId dto)
                      (rows (withCategories
                               (<[newId := newRow newId dto]> (categories db)) db))).
      { apply in_rows. exists newId. apply lookup_insert_eq. }
      pose proof (find_none _ _ Hfind _ Hin) as Hno. cbn in Hno.
      rewrite String.eqb_refl in Hno. discriminate.
  - intros i c Hc. unfold withCategories. cbn [categories].
    rewrite lookup_insert_ne; [exact Hc | congruence].
Qed.

Lemma create_then_find_witness :
  create "c2" headphonesDto audioCatalog =
    (inr (view false (newRow "c2" headphonesDto)
            (snd (create "c2" headphonesDto audioCatalog))),
     snd (create "c2" headphonesDto audioCatalog)) /\
  exists v2,
    findBySlug "headphones" (snd (create "c2" headphonesDto audioCatalog)) =
      (inr v2, snd (create "c2" headphonesDto audioCatalog)) /\
    category v2 = newRow "c2" headphonesDto.
Proof.
  assert (H : create "c2" headphonesDto audioCatalog =
    (inr (view false (newRow "c2" headphonesDto)
            (snd (create "c2" headphonesDto audioCatalog))),
     snd (create "c2" headphonesDto audioCatalog))) by reflexivity.
  split; [exact H |].
  exact (proj1 (proj2 (proj2 (create_then_find "c2" headphonesDto audioCatalog
                                _ _ H)))).
Defined.

(** X24: a successful [delete] leaves nothing pointing at the category.
    It happens only for a category that exists, has no product and no
    subcategory; afterwards [findOne] no longer finds it, no remaining
    category names it as its parent, every other category is stored
    unchanged and the products are untouched. *)
Theorem delete_leaves_no_orphans i db db' :
  delete i db = (inr tt, db') ->
  is_Some (categories db !! i) /\
  productsOf i db = [] /\
  findOne i db' = (inl (NotFoundException "Category not found"), db') /\
  (forall j c, categories db' !! j = Some c -> parentId c <> Some i) /\
  (forall j, j <> i -> categories db' !! j = categories db !! j) /\
  productCategory db' = productCategory db.
Proof.
  intros Hrun.
  destruct (delete_cases i db)
    as [[H _] | [[H _] | [[H _] | (H & Hc & Hp & Hk)]]];
    rewrite H in Hrun; try discriminate.
  injection Hrun as <-. split; [exact Hc |]. split; [exact Hp |].
  unfold withCategories. split; [| split; [| split]].
  - unfold_category. cbn [categories]. rewrite lookup_delete_eq. reflexivity.
  - cbn [categories]. intros j c Hj.
    apply lookup_delete_Some in Hj as [_ Hj]. exact (no_children i db c j Hk Hj).
  - cbn [categories]. intros j Hj. apply lookup_delete_ne. congruence.
  - reflexivity.
Qed.

Lemma delete_leaves_no_orphans_witness :
  delete "c2" (snd (create "c2" headphonesDto audioCatalog)) =
    (inr tt, snd (delete "c2" (snd (create "c2" headphonesDto audioCatalog)))) /\
  findOne "c2" (snd (delete "c2" (snd (create "c2" headphonesDto audioCatalog)))) =
    (inl (NotFoundException "Category not found"),
     snd (delete "c2" (snd (create "c2" headphonesDto audioCatalog)))).
Proof.
  assert (H : delete "c2" (snd (create "c2" headphonesDto audioCatalog)) =
    (inr tt, snd (delete "c2" (snd (create "c2" headphonesDto audioCatalog)))))
    by reflexivity.
  split; [exact H |].
  exact (proj1 (proj2 (proj2 (delete_leaves_no_orphans "c2" _ _ H)))).
Defined.

(** X25: [delete] refuses a category that is in use.  For a category that
    exists, it throws a conflict exception and writes nothing when a
    product belongs to the category, and also when no product does but
    another category names it as its parent; the products are looked at
    first. *)
Theorem delete_refuses_used i db :
  is_Some (categories db !! i) ->
  (productsOf i db <> [] ->
   delete i db =
     (inl (ConflictException
             "Cannot delete category with products. Move or delete products first."),
      db))
  /\
  (productsOf i db = [] -> childrenOf i db <> [] ->
   delete i db =
     (inl (ConflictException
             "Cannot delete category with subcategories. Delete subcategories first."),
      db)).
Proof.
  intros [c Hc].
  destruct (delete_cases i db)
    as [[_ H] | [(-> & _ & Hp) | [(-> & _ & Hp & Hk) | (_ & _ & Hp & Hk)]]].
  - congruence.
  - split; [reflexivity | intros Hp'; contradiction].
  - split; [intros Hp'; contradiction | reflexivity].
  - split; [intros Hp'; contradiction | intros _ Hk'; contradiction].
Qed.

Lemma delete_refuses_used_witness :
  is_Some (categories (snd (create "c2" headphonesDto
                              {| categories := {[ "c1" := audio ]};
                                 productCategory := ∅ |})) !! "c1") /\
  delete "c1" (snd (create "c2" headphonesDto
                      {| categories := {[ "c1" := audio ]};
                         productCategory := ∅ |})) =
    (inl (ConflictException
            "Cannot delete category with subcategories. Delete subcategories first."),
     snd (create "c2" headphonesDto
            {| categories := {[ "c1" := audio ]}; productCategory := ∅ |})).
Proof.
  assert (H : is_Some (categories (snd (create "c2" headphonesDto
                              {| categories := {[ "c1" := audio ]};
                                 productCategory := ∅ |})) !! "c1"))
    by (eexists; reflexivity).
  split; [exact H |].
  apply (proj2 (delete_refuses_used "c1" _ H)); [reflexivity | discriminate].
Defined.

(** X26: [update] compares the new slug with the other categories only.
    In a catalog whose rows are stored under their own id, an update to a
    non-empty slug that another category has throws the conflict exception
    and writes nothing; in one where slugs are unique as well, an update of
    a category to the slug it already has goes through and keeps the
    slug. *)
Theorem update_slug_check i dto db s :
  keyed db ->
  upSlug dto = Some s -> s <> "" ->
  is_Some (categories db !! i) ->
  ((exists j c, j <> i /\ categories db !! j = Some c /\ slug c = s) ->
   update i dto db =
     (inl (ConflictException "Category with this slug already exists"), db))
  /\
  (slugsUnique db ->
   (exists c, categories db !! i = Some c /\ slug c = s) ->
   exists v db',
     update i dto db = (inr v, db') /\ slug (category v) = s /\
     id (category v) = i).
Proof.
  intros Hkey Hs Hne [c Hc].
  destruct (update_cases i dto db)
    as [[_ H] | [(Hrun & _ & _) | (c' & Hc' & Hrun & Hother)]];
    [congruence | ..].
  - split; [intros _; exact Hrun |].
    intros Huniq (c0 & Hc0 & Hs0). exfalso.
    revert Hrun. unfold_category. rewrite Hc, Hs.
    cbn [truthy default from_option Datatypes.id].
    destruct (String.eqb_spec s ""); [contradiction |]. cbn [negb].
    destruct (List.find _ (rows db)) as [o |] eqn:Hfind.
    + intros _. apply find_some in Hfind as [Hin Ho].
      apply andb_true_iff in Ho as [Ho1 Ho2]. apply String.eqb_eq in Ho1.
      apply in_rows in Hin as (j & Hj).
      assert (j = i) by (apply (Huniq j i o c0 Hj Hc0); congruence).
      subst j. rewrite (Hkey i o Hj), String.eqb_refl in Ho2. discriminate.
    + rewrite Hc. discriminate.
  - split.
    + intros (j & cj & Hj & Hcj & Hsj). exfalso. apply Hj.
      rewrite <- (Hkey j cj Hcj).
      apply (Hother s Hs Hne cj); [apply in_rows; eauto | exact Hsj].
    + intros _ _. eexists _, _. split; [exact Hrun |].
      cbn [view category changedRow slug id]. rewrite Hs.
      split; [reflexivity |]. assert (c' = c) as -> by congruence.
      exact (Hkey i c Hc).
Qed.

Lemma update_slug_check_witness :
  keyed (snd (create "c2" headphonesDto audioCatalog)) /\
  upSlug (renameTo "audio") = Some "audio" /\ "audio" <> "" /\
  is_Some (categories (snd (create "c2" headphonesDto audioCatalog)) !! "c2") /\
  (exists j c, j <> "c2" /\
     categories (snd (create "c2" headphonesDto audioCatalog)) !! j = Some c /\
     slug c = "audio") /\
  update "c2" (renameTo "audio") (snd (create "c2" headphonesDto audioCatalog)) =
    (inl (ConflictException "Category with this slug already exists"),
     snd (create "c2" headphonesDto audioCatalog)).
Proof.
  assert (H1 : keyed (snd (create "c2" headphonesDto audioCatalog))).
  { exact (proj1 (serve_keeps_slugs audioCatalog (Create "c2" headphonesDto)
                    audioCatalog_keyed audioCatalog_slugsUnique I)). }
  assert (H2 : "audio" <> "") by discriminate.
  assert (H3 : is_Some (categories (snd (create "c2" headphonesDto audioCatalog))
                          !! "c2")) by (eexists; reflexivity).
  assert (H4 : exists j c, j <> "c2" /\
     categories (snd (create "c2" headphonesDto audioCatalog)) !! j = Some c /\
     slug c = "audio").
  { exists "c1", audio. split; [discriminate |]. split; reflexivity. }
  split; [exact H1 |]. split; [reflexivity |]. split; [exact H2 |].
  split; [exact H3 |]. split; [exact H4 |].
  exact (proj1 (update_slug_check "c2" (renameTo "audio") _ "audio"
                  H1 eq_refl H2 H3) H4).
Defined.

End CategoryFacts.
